(** * OJNet packet codecs: a shallow embedding of the Go sources

    The development follows the three source files of package [ojnet]:
    the big-endian writers, the shared decode preamble
    [checkPidAndLength], and the [Encode]/[Decode] methods of the packet
    structs.  A [bytes.Buffer] is its unread portion, Go's [uint8] is
    [Byte.byte], wider unsigned integers are [Z] with the truncation of
    each conversion written out, and a run-time panic is an explicit
    outcome. *)

From Stdlib Require Import ZArith List Lia Bool String Ascii.
From Stdlib Require Strings.Byte.
From Stdlib Require Import DecimalString.
Import ListNotations.
Local Open Scope string_scope.
Local Open Scope list_scope.
Local Open Scope Z_scope.

(** ** Go primitives *)

Module Go.

Definition byte : Type := Byte.byte.

(** [int(b)], [uint32(b)], ... : the value of a byte. *)
Definition byte_val (b : byte) : Z := Z.of_N (Byte.to_N b).

(** [byte(v)] : conversion of an integer to [uint8] keeps the low 8 bits. *)
Definition to_byte (v : Z) : byte :=
  match Byte.of_N (Z.to_N (v mod 256)) with
  | Some b => b
  | None => Byte.x00
  end.

(** [strconv.Itoa]. *)
Definition Itoa (i : Z) : string := NilZero.string_of_int (Z.to_int i).

(** The result of a computation that may hit a run-time panic
    (here: an index out of range). *)
Inductive outcome (A : Type) : Type :=
| Done (a : A)
| Panic.
Arguments Done {A} a.
Arguments Panic {A}.

Definition bind {A B} (m : outcome A) (k : A -> outcome B) : outcome B :=
  match m with
  | Done a => k a
  | Panic => Panic
  end.

End Go.
Export Go.

Notation "x <- m ;; k" := (bind m (fun x => k))
  (at level 61, m at next level, right associativity).
Notation "' pat <- m ;; k" := (bind m (fun x => match x with pat => k end))
  (at level 61, pat pattern, m at next level, right associativity).

(** ** [bytes.Buffer] *)

Module Buffer.

(** The unread bytes; writes append at the end, reads consume the front. *)
Definition t : Type := list byte.

Definition NewBuffer (data : list byte) : t := data.
Definition Len (buf : t) : Z := Z.of_nat (List.length buf).
Definition Bytes (buf : t) : list byte := buf.

(** [Grow] panics on a negative count and never changes the contents. *)
Definition Grow (buf : t) (n : Z) : outcome t :=
  if n <? 0 then Panic else Done buf.

Definition WriteByte (buf : t) (c : byte) : t := buf ++ [c].
Definition Write (buf : t) (p : list byte) : t := buf ++ p.

(** [ReadByte] yields [(0, io.EOF)] on an empty buffer; the boolean is
    [true] when the error is non-nil. *)
Definition ReadByte (buf : t) : byte * bool * t :=
  match buf with
  | [] => (Byte.x00, true, [])
  | c :: rest => (c, false, rest)
  end.

(** [readSlice]: the bytes up to and including the first [delim], or
    everything that is left (with [io.EOF]) when there is none. *)
Fixpoint readSlice (buf : t) (delim : byte) : list byte * bool * t :=
  match buf with
  | [] => ([], true, [])
  | c :: rest =>
      if Byte.eqb c delim then ([c], false, rest)
      else let '(line, eof, rest') := readSlice rest delim in
           (c :: line, eof, rest')
  end.

Definition ReadBytes (buf : t) (delim : byte) : list byte * bool * t :=
  readSlice buf delim.

End Buffer.

(** ** [encoding/binary], big-endian *)

Module BigEndian.

Definition PutUint16 (v : Z) : list byte :=
  [to_byte (Z.shiftr v 8); to_byte v].

Definition PutUint32 (v : Z) : list byte :=
  [to_byte (Z.shiftr v 24); to_byte (Z.shiftr v 16);
   to_byte (Z.shiftr v 8); to_byte v].

Definition PutUint64 (v : Z) : list byte :=
  [to_byte (Z.shiftr v 56); to_byte (Z.shiftr v 48);
   to_byte (Z.shiftr v 40); to_byte (Z.shiftr v 32);
   to_byte (Z.shiftr v 24); to_byte (Z.shiftr v 16);
   to_byte (Z.shiftr v 8); to_byte v].

(** The readers index the last byte they need first ([_ = b[1]],
    [_ = b[3]], [_ = b[7]]): a shorter slice panics, a longer one is
    read at its first bytes. *)
Definition Uint16 (b : list byte) : outcome Z :=
  match b with
  | b0 :: b1 :: _ =>
      Done (Z.lor (byte_val b1) (Z.shiftl (byte_val b0) 8))
  | _ => Panic
  end.

Definition Uint32 (b : list byte) : outcome Z :=
  match b with
  | b0 :: b1 :: b2 :: b3 :: _ =>
      Done (Z.lor (Z.lor (Z.lor (byte_val b3)
                                (Z.shiftl (byte_val b2) 8))
                         (Z.shiftl (byte_val b1) 16))
                  (Z.shiftl (byte_val b0) 24))
  | _ => Panic
  end.

Definition Uint64 (b : list byte) : outcome Z :=
  match b with
  | b0 :: b1 :: b2 :: b3 :: b4 :: b5 :: b6 :: b7 :: _ =>
      Done (Z.lor (Z.lor (Z.lor (Z.lor (Z.lor (Z.lor (Z.lor
             (byte_val b7)
             (Z.shiftl (byte_val b6) 8))
             (Z.shiftl (byte_val b5) 16))
             (Z.shiftl (byte_val b4) 24))
             (Z.shiftl (byte_val b3) 32))
             (Z.shiftl (byte_val b2) 40))
             (Z.shiftl (byte_val b1) 48))
             (Z.shiftl (byte_val b0) 56))
  | _ => Panic
  end.

End BigEndian.

(** ** The writers of the package *)

Definition WriteUInt16 (buffer : Buffer.t) (val : Z) : Buffer.t :=
  let temp := BigEndian.PutUint16 val in
  Buffer.Write buffer temp.

Definition WriteUInt32 (buffer : Buffer.t) (val : Z) : Buffer.t :=
  let temp := BigEndian.PutUint32 val in
  Buffer.Write buffer temp.

Definition WriteUInt64 (buffer : Buffer.t) (val : Z) : Buffer.t :=
  let temp := BigEndian.PutUint64 val in
  Buffer.Write buffer temp.

(** ** Errors, identifiers and lengths *)

Record EncodeDecodeError : Type := { Reason : string }.

Definition error : Type := option EncodeDecodeError.
Definition nil_error : error := None.

Definition PacketID : Type := byte.

(** The constant block starts its [iota] at zero. *)
Definition ConnectionRequestPid : PacketID := to_byte 0.
Definition ConnectionAcceptedPid : PacketID := to_byte 1.
Definition ConnectionRejectedPid : PacketID := to_byte 2.
Definition AcknowledgedPid : PacketID := Byte.x0a.
Definition ChannelOperationPid : PacketID := Byte.x0b.
Definition ContainerPid : PacketID := Byte.x0c.

Definition PROTOCOL_VERSION : byte := Byte.x00.

Definition connectionRequestLength : Z := 10.
Definition connectionAcceptedLength : Z := 9.
Definition connectionRejectedLength : Z := 2.
Definition channelOperationLength : Z := 3.
Definition acknowledgedBaseLength : Z := 6.
Definition containerBaseLength : Z := 4.

(** ** The shared decode preamble *)

Definition checkPidAndLength (buf : Buffer.t) (expectedId : PacketID)
    (expectedLength : Z) (atLeast : bool) : error * Buffer.t :=
  if negb atLeast && negb (Buffer.Len buf =? expectedLength) then
    (Some {| Reason := ("Length of buffer mismatch (should be "
                        ++ Itoa expectedLength ++ " bytes)")%string |}, buf)
  else if Buffer.Len buf <? expectedLength then
    (Some {| Reason := ("Length of buffer mismatch (should be at least"
                        ++ Itoa expectedLength ++ " bytes)")%string |}, buf)
  else
    let '(pid, _, buf) := Buffer.ReadByte buf in
    if negb (Byte.eqb pid expectedId) then
      (Some {| Reason := ("Packet ID Mismatch, should be "
                          ++ Itoa (byte_val expectedId)
                          ++ " (got " ++ Itoa (byte_val pid) ++ ")")%string |},
       buf)
    else (nil_error, buf).

(** ** Packet codecs

    A method with a pointer receiver takes the receiver's current value and
    returns its value afterwards next to the Go result. *)

(** ID: 0x01 - sent from client to server to try to open a connection. *)
Module ConnectionRequestPacket.

Record t : Type := { ClientId : Z; ProtocolVersion : byte }.

Definition Encode (packet : t) : outcome (list byte * error) :=
  let buf := Buffer.NewBuffer [] in
  buf <- Buffer.Grow buf connectionRequestLength ;;
  let buf := Buffer.WriteByte buf ConnectionRequestPid in
  let buf := WriteUInt64 buf (ClientId packet) in
  let buf := Buffer.WriteByte buf (ProtocolVersion packet) in
  Done (Buffer.Bytes buf, nil_error).

Definition Decode (packet : t) (data : list byte) : outcome (t * error) :=
  let buf := Buffer.NewBuffer data in
  let '(err, buf) :=
    checkPidAndLength buf ConnectionRequestPid connectionRequestLength false in
  match err with
  | Some _ => Done (packet, err)
  | None =>
      let '(clientIdBytes, _, buf) := Buffer.ReadBytes buf Byte.x08 in
      v <- BigEndian.Uint64 clientIdBytes ;;
      let packet := {| ClientId := v;
                       ProtocolVersion := ProtocolVersion packet |} in
      let '(pVer, _, buf) := Buffer.ReadByte buf in
      let packet := {| ClientId := ClientId packet;
                       ProtocolVersion := pVer |} in
      Done (packet, nil_error)
  end.

End ConnectionRequestPacket.

(** ID 0x02 - response from server to accept and open a connection. *)
Module ConnectionAcceptedPacket.

Record t : Type := { ServerId : Z }.

Definition Encode (packet : t) : outcome (list byte * error) :=
  let buf := Buffer.NewBuffer [] in
  buf <- Buffer.Grow buf connectionRejectedLength ;;
  let buf := Buffer.WriteByte buf ConnectionAcceptedPid in
  let buf := WriteUInt64 buf (ServerId packet) in
  Done (Buffer.Bytes buf, nil_error).

Definition Decode (packet : t) (data : list byte) : outcome (t * error) :=
  let buf := Buffer.NewBuffer data in
  let '(err, buf) :=
    checkPidAndLength buf ConnectionAcceptedPid connectionAcceptedLength false in
  match err with
  | Some _ => Done (packet, err)
  | None =>
      let '(serverIdBytes, _, buf) := Buffer.ReadBytes buf Byte.x08 in
      v <- BigEndian.Uint64 serverIdBytes ;;
      let packet := {| ServerId := v |} in
      Done (packet, nil_error)
  end.

End ConnectionAcceptedPacket.

(** [ConnectionRejectedReason] is a [uint8]. *)
Definition ConnectionRejectedReason : Type := byte.
Definition INCOMPATIBLE_PROTOCOL_VER : ConnectionRejectedReason := to_byte 0.
Definition MAX_CONNECTIONS_REACHED : ConnectionRejectedReason := to_byte 1.
Definition RATELIMITED : ConnectionRejectedReason := to_byte 2.

(** ID 0x03 - response from server to reject a connection request. *)
Module ConnectionRejectedPacket.

Record t : Type := { reason : ConnectionRejectedReason }.

Definition Encode (packet : t) : outcome (list byte * error) :=
  let buf := Buffer.NewBuffer [] in
  buf <- Buffer.Grow buf connectionRejectedLength ;;
  let buf := Buffer.WriteByte buf ConnectionRejectedPid in
  let buf := Buffer.WriteByte buf (reason packet) in
  Done (Buffer.Bytes buf, nil_error).

Definition Decode (packet : t) (data : list byte) : outcome (t * error) :=
  let buf := Buffer.NewBuffer data in
  let '(err, buf) :=
    checkPidAndLength buf ConnectionRejectedPid connectionRejectedLength false in
  match err with
  | Some _ => Done (packet, err)
  | None =>
      let '(reason, _, buf) := Buffer.ReadByte buf in
      let packet := {| reason := reason |} in
      Done (packet, nil_error)
  end.

End ConnectionRejectedPacket.

(** ID 0x0A - acknowledges one or more reliable packets; the ids are
    prefixed by a [uint8] holding their number. *)
Module AcknowledgePacket.

Record t : Type := { sequenceIds : list Z }.

Definition Encode (packet : t) : outcome (list byte * error) :=
  let n := Z.of_nat (List.length (sequenceIds packet)) in
  if n <? 1 then
    Done ([], Some {| Reason := "sequenceIds array is empty!" |})
  else
    let buf := Buffer.NewBuffer [] in
    buf <- Buffer.Grow buf (acknowledgedBaseLength + ((n - 1) * 4)) ;;
    let buf := Buffer.WriteByte buf AcknowledgedPid in
    let buf := Buffer.WriteByte buf (to_byte n) in
    let buf := fold_left (fun buf id => WriteUInt32 buf id)
                         (sequenceIds packet) buf in
    Done (Buffer.Bytes buf, nil_error).

(** [s[i] = v]; an index outside the slice panics. *)
Fixpoint store (s : list Z) (i : nat) (v : Z) : outcome (list Z) :=
  match s, i with
  | [], _ => Panic
  | _ :: s', O => Done (v :: s')
  | x :: s', S i' => s'' <- store s' i' v ;; Done (x :: s'')
  end.

(** The body of [for i := 0; i < int(sequenceCount); i++], with the
    number of iterations still to run as the decreasing argument. *)
Fixpoint readIds (todo i : nat) (buf : Buffer.t) (ids : list Z)
    : outcome (list Z * Buffer.t) :=
  match todo with
  | O => Done (ids, buf)
  | S todo' =>
      let '(sequenceBytes, _, buf) := Buffer.ReadBytes buf Byte.x04 in
      v <- BigEndian.Uint32 sequenceBytes ;;
      ids <- store ids i v ;;
      readIds todo' (S i) buf ids
  end.

Definition Decode (packet : t) (data : list byte) : outcome (t * error) :=
  let buf := Buffer.NewBuffer data in
  let '(err, buf) :=
    checkPidAndLength buf AcknowledgedPid acknowledgedBaseLength true in
  match err with
  | Some _ => Done (packet, err)
  | None =>
      let '(sequenceCount, _, buf) := Buffer.ReadByte buf in
      if byte_val sequenceCount <? 1 then Done (packet, nil_error)
      else
        let count := Z.to_nat (byte_val sequenceCount) in
        let packet := {| sequenceIds := repeat 0 count |} in
        '(ids, buf) <- readIds count 0%nat buf (sequenceIds packet) ;;
        Done ({| sequenceIds := ids |}, nil_error)
  end.

End AcknowledgePacket.

(** [ChannelOperation] is a [uint8]. *)
Definition ChannelOperation : Type := byte.
Definition OPEN_CHANNEL : ChannelOperation := to_byte 0.
Definition CLOSE_CHANNEL : ChannelOperation := to_byte 1.
Definition RESET_ORDERED_IDS : ChannelOperation := to_byte 2.

(** ID 0x0B - signals network operations on a channel. *)
Module ChannelOpPacket.

Record t : Type := { operation : ChannelOperation; channel : byte }.

Definition Encode (packet : t) : outcome (list byte * error) :=
  let buf := Buffer.NewBuffer [] in
  buf <- Buffer.Grow buf channelOperationLength ;;
  let buf := Buffer.WriteByte buf ChannelOperationPid in
  let buf := Buffer.WriteByte buf (channel packet) in
  Done (Buffer.Bytes buf, nil_error).

Definition Decode (packet : t) (data : list byte) : outcome (t * error) :=
  let buf := Buffer.NewBuffer data in
  let '(err, buf) :=
    checkPidAndLength buf ChannelOperationPid channelOperationLength false in
  match err with
  | Some _ => Done (packet, err)
  | None =>
      let '(channel, _, buf) := Buffer.ReadByte buf in
      let packet := {| operation := operation packet;
                       channel := channel |} in
      Done (packet, nil_error)
  end.

End ChannelOpPacket.

(** The composition the round-trip property is about: [Decode] into a
    receiver applied to the bytes [Encode] returned, when [Encode]
    reported no error. *)
Definition roundtrip {P : Type}
    (Encode : P -> outcome (list byte * error))
    (Decode : P -> list byte -> outcome (P * error))
    (receiver p : P) : outcome (P * error) :=
  '(data, err) <- Encode p ;;
  match err with
  | Some _ => Done (receiver, err)
  | None => Decode receiver data
  end.

(** The error values [checkPidAndLength] builds, named for the statements. *)
Definition lengthMismatch (expectedLength : Z) : EncodeDecodeError :=
  {| Reason := ("Length of buffer mismatch (should be "
                ++ Itoa expectedLength ++ " bytes)")%string |}.

Definition lengthMismatchAtLeast (expectedLength : Z) : EncodeDecodeError :=
  {| Reason := ("Length of buffer mismatch (should be at least"
                ++ Itoa expectedLength ++ " bytes)")%string |}.

Definition idMismatch (expectedId pid : byte) : EncodeDecodeError :=
  {| Reason := ("Packet ID Mismatch, should be "
                ++ Itoa (byte_val expectedId)
                ++ " (got " ++ Itoa (byte_val pid) ++ ")")%string |}.

Definition emptySequenceIds : EncodeDecodeError :=
  {| Reason := "sequenceIds array is empty!" |}.

(** ** protocol.go: the connection request before the shared preamble

    The file declares the same struct and identifiers and checks the length
    and the identifier inline. *)
Module ProtocolGo.

Definition Encode (packet : ConnectionRequestPacket.t)
    : outcome (list byte * error) :=
  let buf := Buffer.NewBuffer [] in
  buf <- Buffer.Grow buf 10 ;;
  let buf := Buffer.WriteByte buf ConnectionRequestPid in
  let buf := WriteUInt64 buf (ConnectionRequestPacket.ClientId packet) in
  let buf :=
    Buffer.WriteByte buf (ConnectionRequestPacket.ProtocolVersion packet) in
  Done (Buffer.Bytes buf, nil_error).

Definition Decode (packet : ConnectionRequestPacket.t) (data : list byte)
    : outcome (ConnectionRequestPacket.t * error) :=
  let buf := Buffer.NewBuffer data in
  if negb (Buffer.Len buf =? 10) then
    Done (packet,
          Some {| Reason := "Length of buffer mismatch (should be 10 bytes)" |})
  else
    let '(pid, _, buf) := Buffer.ReadByte buf in
    if negb (Byte.eqb pid ConnectionRequestPid) then
      Done (packet,
            Some {| Reason := ("Packet ID Mismatch, should be "
                               ++ Itoa (byte_val ConnectionRequestPid)
                               ++ " (got " ++ Itoa (byte_val pid)
                               ++ ")")%string |})
    else
      let '(clientIdBytes, _, buf) := Buffer.ReadBytes buf Byte.x08 in
      v <- BigEndian.Uint64 clientIdBytes ;;
      let packet :=
        {| ConnectionRequestPacket.ClientId := v;
           ConnectionRequestPacket.ProtocolVersion :=
             ConnectionRequestPacket.ProtocolVersion packet |} in
      let '(pVer, _, buf) := Buffer.ReadByte buf in
      let packet :=
        {| ConnectionRequestPacket.ClientId :=
             ConnectionRequestPacket.ClientId packet;
           ConnectionRequestPacket.ProtocolVersion := pVer |} in
      Done (packet, nil_error).

End ProtocolGo.

(** ** Notions used in the statements *)

(** No byte of [bs] is the delimiter [delim]. *)
Definition delimFree (delim : byte) (bs : list byte) : bool :=
  forallb (fun b => negb (Byte.eqb b delim)) bs.

(** The value fits an unsigned integer of [w] bits. *)
Definition fits (w : Z) (v : Z) : Prop := 0 <= v < 2 ^ w.

(** A sequence id after which [ReadBytes(4)] stops exactly: its last byte
    is the first one equal to 4. *)
Definition endsAtDelim (id : Z) : bool :=
  delimFree Byte.x04 (firstn 3 (BigEndian.PutUint32 id))
  && Byte.eqb (to_byte id) Byte.x04.

(** A sequence id that can close the packet: none of its first three
    bytes is 4. *)
Definition headDelimFree (id : Z) : bool :=
  delimFree Byte.x04 (firstn 3 (BigEndian.PutUint32 id)).

(** A list of sequence ids that the acknowledge decoder reads back one id
    at a time: every id but the last stops [ReadBytes(4)] at its own last
    byte, and the last one has no 4 among its first three bytes. *)
Fixpoint readable (ids : list Z) : bool :=
  match ids with
  | [] => true
  | [id] => headDelimFree id
  | id :: rest => endsAtDelim id && readable rest
  end.

(** ** The [Packet] interface

    A value of the interface is a pointer to one of the five structs that
    have both methods; a call goes to the method of the dynamic type, and
    [Decode] fills the struct the interface value points to. *)
Module Packet.

Inductive t : Type :=
| ConnectionRequest (p : ConnectionRequestPacket.t)
| ConnectionAccepted (p : ConnectionAcceptedPacket.t)
| ConnectionRejected (p : ConnectionRejectedPacket.t)
| Acknowledge (p : AcknowledgePacket.t)
| ChannelOp (p : ChannelOpPacket.t).

Definition Encode (packet : t) : outcome (list byte * error) :=
  match packet with
  | ConnectionRequest p => ConnectionRequestPacket.Encode p
  | ConnectionAccepted p => ConnectionAcceptedPacket.Encode p
  | ConnectionRejected p => ConnectionRejectedPacket.Encode p
  | Acknowledge p => AcknowledgePacket.Encode p
  | ChannelOp p => ChannelOpPacket.Encode p
  end.

Definition Decode (packet : t) (data : list byte) : outcome (t * error) :=
  match packet with
  | ConnectionRequest p =>
      '(p, err) <- ConnectionRequestPacket.Decode p data ;;
      Done (ConnectionRequest p, err)
  | ConnectionAccepted p =>
      '(p, err) <- ConnectionAcceptedPacket.Decode p data ;;
      Done (ConnectionAccepted p, err)
  | ConnectionRejected p =>
      '(p, err) <- ConnectionRejectedPacket.Decode p data ;;
      Done (ConnectionRejected p, err)
  | Acknowledge p =>
      '(p, err) <- AcknowledgePacket.Decode p data ;;
      Done (Acknowledge p, err)
  | ChannelOp p =>
      '(p, err) <- ChannelOpPacket.Decode p data ;;
      Done (ChannelOp p, err)
  end.

(** Two interface values of the same dynamic type. *)
Definition sameKind (a b : t) : bool :=
  match a, b with
  | ConnectionRequest _, ConnectionRequest _
  | ConnectionAccepted _, ConnectionAccepted _
  | ConnectionRejected _, ConnectionRejected _
  | Acknowledge _, Acknowledge _
  | ChannelOp _, ChannelOp _ => true
  | _, _ => false
  end.

(** The identifier constant the methods of the dynamic type use. *)
Definition Pid (packet : t) : PacketID :=
  match packet with
  | ConnectionRequest _ => ConnectionRequestPid
  | ConnectionAccepted _ => ConnectionAcceptedPid
  | ConnectionRejected _ => ConnectionRejectedPid
  | Acknowledge _ => AcknowledgedPid
  | ChannelOp _ => ChannelOperationPid
  end.

(** The integer fields hold values of their Go types. *)
Definition wellTyped (packet : t) : Prop :=
  match packet with
  | ConnectionRequest p => fits 64 (ConnectionRequestPacket.ClientId p)
  | ConnectionAccepted p => fits 64 (ConnectionAcceptedPacket.ServerId p)
  | Acknowledge p => Forall (fits 32) (AcknowledgePacket.sequenceIds p)
  | ConnectionRejected _ | ChannelOp _ => True
  end.

(** Equal, or two channel operations on the same channel. *)
Definition sameOnWire (a b : t) : Prop :=
  a = b
  \/ exists op op' ch,
       a = ChannelOp {| ChannelOpPacket.operation := op;
                        ChannelOpPacket.channel := ch |}
       /\ b = ChannelOp {| ChannelOpPacket.operation := op';
                           ChannelOpPacket.channel := ch |}.

End Packet.

(** What the length check of [checkPidAndLength] lets through. *)
Definition lengthOk (buf : Buffer.t) (len : Z) (atLeast : bool) : Prop :=
  if atLeast then len <= Buffer.Len buf else Buffer.Len buf = len.

(** ID 0x0C - the container packet, the header of every payload sent over
    the network.  The sources declare the struct, [ContainerPid] and
    [containerBaseLength] and nothing else for it. *)
Module ContainerPacket.

Record t : Type := {
  channel : byte;
  (* these flags all become part of a single byte *)
  reliable : bool;
  ordered : bool;
  compressed : bool;
  (* only present if reliable is true *)
  sequenceId : Z;
  (* only present if ordered is true *)
  orderedId : Z;
  (* prefixed by a uint16 of length of payload *)
  payload : list byte
}.

(** Modelled from the spec: the value of a big-endian field of any width,
    for the container decoder that the sources do not have. *)
Definition beVal (b : list byte) : Z :=
  fold_left (fun acc c => acc * 256 + byte_val c) b 0.

(** Modelled from the spec: the bounds-checked read of the container
    decoder that the sources do not have; [n] bytes off the front of the
    buffer, or nothing when fewer than [n] remain. *)
Definition take (n : Z) (buf : Buffer.t) : option (list byte * Buffer.t) :=
  if Buffer.Len buf <? n then None
  else Some (firstn (Z.to_nat n) buf, skipn (Z.to_nat n) buf).

Section Codec.

(** The external payload codec. *)
Variables compress decompress : list byte -> list byte.

(** Modelled from the spec: the flags byte of the container, which no
    source file builds; bit 0 is reliable, bit 1 ordered, bit 2
    compressed. *)
Definition flagsByte (packet : t) : byte :=
  to_byte (Z.lor (Z.lor (Z.b2z (reliable packet))
                        (Z.shiftl (Z.b2z (ordered packet)) 1))
                 (Z.shiftl (Z.b2z (compressed packet)) 2)).

(** Modelled from the spec: the payload bytes as they travel, compressed
    by the external codec before the length prefix is computed; the
    sources have no code for it. *)
Definition wirePayload (packet : t) : list byte :=
  if compressed packet then compress (payload packet) else payload packet.

(** Modelled from the spec: [Encode] of the container packet, missing
    from the sources.  Identifier, channel, flags byte, the sequence id
    only when reliable, the ordered id only when ordered, the [uint16]
    length prefix, the payload. *)
Definition Encode (packet : t) : list byte :=
  let buf := Buffer.NewBuffer [] in
  let buf := Buffer.WriteByte buf ContainerPid in
  let buf := Buffer.WriteByte buf (channel packet) in
  let buf := Buffer.WriteByte buf (flagsByte packet) in
  let buf := if reliable packet
             then WriteUInt32 buf (sequenceId packet) else buf in
  let buf := if ordered packet
             then WriteUInt16 buf (orderedId packet) else buf in
  let body := wirePayload packet in
  let buf := WriteUInt16 buf (Z.of_nat (List.length body)) in
  let buf := Buffer.Write buf body in
  Buffer.Bytes buf.

(** Modelled from the spec: [Decode] of the container packet, missing
    from the sources.  The preamble checks the minimum length and the
    identifier; the flags byte is read before the fields it gates; each
    later field is read only after checking that enough bytes remain,
    and the payload only after checking the declared length against
    what is left. *)
Definition Decode (data : list byte) : t + EncodeDecodeError :=
  let buf := Buffer.NewBuffer data in
  let '(err, buf) :=
    checkPidAndLength buf ContainerPid containerBaseLength true in
  match err with
  | Some e => inr e
  | None =>
      let '(channel, _, buf) := Buffer.ReadByte buf in
      let '(flags, _, buf) := Buffer.ReadByte buf in
      let reliable := Z.testbit (byte_val flags) 0 in
      let ordered := Z.testbit (byte_val flags) 1 in
      let compressed := Z.testbit (byte_val flags) 2 in
      match (if reliable then take 4 buf else Some ([], buf)) with
      | None => inr (lengthMismatchAtLeast 4)
      | Some (sequenceBytes, buf) =>
          match (if ordered then take 2 buf else Some ([], buf)) with
          | None => inr (lengthMismatchAtLeast 2)
          | Some (orderedBytes, buf) =>
              match take 2 buf with
              | None => inr (lengthMismatchAtLeast 2)
              | Some (lengthBytes, buf) =>
                  let n := beVal lengthBytes in
                  match take n buf with
                  | None => inr (lengthMismatchAtLeast n)
                  | Some (body, _) =>
                      inl {| channel := channel;
                             reliable := reliable;
                             ordered := ordered;
                             compressed := compressed;
                             sequenceId := beVal sequenceBytes;
                             orderedId := beVal orderedBytes;
                             payload := if compressed
                                        then decompress body else body |}
                  end
              end
          end
      end
  end.

End Codec.

End ContainerPacket.

(** The optional fields of a container as they appear on the wire: four
    bytes of sequence id when reliable, two bytes of ordered id when
    ordered, nothing otherwise. *)
Definition sequenceField (p : ContainerPacket.t) : list byte :=
  if ContainerPacket.reliable p
  then BigEndian.PutUint32 (ContainerPacket.sequenceId p) else [].

Definition orderedField (p : ContainerPacket.t) : list byte :=
  if ContainerPacket.ordered p
  then BigEndian.PutUint16 (ContainerPacket.orderedId p) else [].

(** * Properties *)

(** ** Bytes and buffers *)

Lemma byte_val_range (b : byte) : 0 <= byte_val b < 256.
Proof.
  unfold byte_val.
  pose proof (Byte.to_N_bounded b) as Hb.
  lia.
Qed.

Lemma byte_val_to_byte (v : Z) : byte_val (to_byte v) = v mod 256.
Proof.
  unfold byte_val, to_byte.
  assert (Hm : 0 <= v mod 256 < 256) by (apply Z.mod_pos_bound; lia).
  destruct (Byte.of_N (Z.to_N (v mod 256))) as [b|] eqn:E.
  - apply Byte.to_of_N in E. rewrite E. lia.
  - apply Byte.of_N_None_iff in E. lia.
Qed.

Lemma byte_eqb_eq (a b : byte) : Byte.eqb a b = true <-> a = b.
Proof.
  split; [apply Byte.byte_dec_bl | apply Byte.byte_dec_lb].
Qed.

Lemma byte_eqb_neq (a b : byte) : a <> b -> Byte.eqb a b = false.
Proof.
  intro Hne. destruct (Byte.eqb a b) eqn:E; [|reflexivity].
  apply byte_eqb_eq in E. contradiction.
Qed.

Lemma fold_WriteUInt32 (ids : list Z) (buf : Buffer.t) :
  fold_left (fun buf id => WriteUInt32 buf id) ids buf
  = buf ++ flat_map BigEndian.PutUint32 ids.
Proof.
  revert buf. induction ids as [|id ids IH]; intro buf; simpl.
  - now rewrite app_nil_r.
  - rewrite IH. unfold WriteUInt32, Buffer.Write.
    now rewrite <- app_assoc.
Qed.

Lemma length_flat_PutUint32 (ids : list Z) :
  List.length (flat_map BigEndian.PutUint32 ids) = (4 * List.length ids)%nat.
Proof.
  induction ids as [|id ids IH]; simpl; [reflexivity | rewrite IH; lia].
Qed.

(** ** The preamble, case by case *)

Lemma checkPidAndLength_exact_bad buf id len :
  Buffer.Len buf <> len ->
  checkPidAndLength buf id len false = (Some (lengthMismatch len), buf).
Proof.
  intro Hne. unfold checkPidAndLength.
  apply Z.eqb_neq in Hne. rewrite Hne. reflexivity.
Qed.

Lemma checkPidAndLength_atLeast_bad buf id len :
  Buffer.Len buf < len ->
  checkPidAndLength buf id len true = (Some (lengthMismatchAtLeast len), buf).
Proof.
  intro Hlt. unfold checkPidAndLength.
  apply Z.ltb_lt in Hlt. rewrite Hlt. reflexivity.
Qed.

Lemma checkPidAndLength_read pid rest id len atLeast :
  lengthOk (pid :: rest) len atLeast ->
  checkPidAndLength (pid :: rest) id len atLeast
  = (if Byte.eqb pid id then nil_error else Some (idMismatch id pid), rest).
Proof.
  intro Hok. unfold checkPidAndLength.
  assert (Hlt : (Buffer.Len (pid :: rest) <? len) = false).
  { apply Z.ltb_ge. destruct atLeast; unfold lengthOk in Hok; lia. }
  rewrite Hlt.
  replace (negb atLeast && negb (Buffer.Len (pid :: rest) =? len)) with false.
  - simpl. destruct (Byte.eqb pid id); reflexivity.
  - destruct atLeast; [reflexivity|].
    unfold lengthOk in Hok. rewrite Hok, Z.eqb_refl. reflexivity.
Qed.

Lemma checkPidAndLength_mismatch pid rest id len atLeast :
  lengthOk (pid :: rest) len atLeast -> pid <> id ->
  checkPidAndLength (pid :: rest) id len atLeast
  = (Some (idMismatch id pid), rest).
Proof.
  intros Hok Hne. rewrite checkPidAndLength_read by assumption.
  now rewrite byte_eqb_neq.
Qed.

Lemma checkPidAndLength_match id rest len atLeast :
  lengthOk (id :: rest) len atLeast ->
  checkPidAndLength (id :: rest) id len atLeast = (nil_error, rest).
Proof.
  intro Hok. rewrite checkPidAndLength_read by assumption.
  now rewrite (Byte.byte_dec_lb (eq_refl id)).
Qed.

(** ** The acknowledge encoder on a non-empty list *)

Lemma Acknowledge_Encode_ids (ids : list Z) :
  ids <> [] ->
  AcknowledgePacket.Encode {| AcknowledgePacket.sequenceIds := ids |}
  = Done ([AcknowledgedPid; to_byte (Z.of_nat (List.length ids))]
            ++ flat_map BigEndian.PutUint32 ids, nil_error).
Proof.
  intro Hne. destruct ids as [|id ids]; [contradiction|].
  unfold AcknowledgePacket.Encode. cbn [AcknowledgePacket.sequenceIds].
  set (n := Z.of_nat (List.length (id :: ids))).
  assert (Hn : 1 <= n) by (subst n; simpl List.length; lia).
  replace (n <? 1) with false by (symmetry; apply Z.ltb_ge; lia).
  unfold Buffer.Grow, acknowledgedBaseLength.
  replace (6 + (n - 1) * 4 <? 0) with false
    by (symmetry; apply Z.ltb_ge; lia).
  cbn [bind]. rewrite fold_WriteUInt32. reflexivity.
Qed.

(** ** Identifier bytes *)

(** C3: the identifier bytes the code declares are 0x00, 0x01, 0x02 for the
    three handshake packets (not 0x01, 0x02, 0x03, which the comments above
    the structs announce), and 0x0A, 0x0B, 0x0C for the others; the request
    with client id 42 and protocol version 0 encodes to ten bytes that start
    with 0x00, and the ten bytes starting with 0x01 are rejected by [Decode]
    with an identifier mismatch. *)
Theorem identifier_bytes_of_the_code :
  byte_val ConnectionRequestPid = 0
  /\ byte_val ConnectionAcceptedPid = 1
  /\ byte_val ConnectionRejectedPid = 2
  /\ byte_val AcknowledgedPid = 10
  /\ byte_val ChannelOperationPid = 11
  /\ byte_val ContainerPid = 12
  /\ ConnectionRequestPacket.Encode
       {| ConnectionRequestPacket.ClientId := 42;
          ConnectionRequestPacket.ProtocolVersion := Byte.x00 |}
     = Done ([Byte.x00; Byte.x00; Byte.x00; Byte.x00; Byte.x00; Byte.x00;
              Byte.x00; Byte.x00; Byte.x2a; Byte.x00], nil_error)
  /\ (forall receiver,
        ConnectionRequestPacket.Decode receiver
          [Byte.x01; Byte.x00; Byte.x00; Byte.x00; Byte.x00; Byte.x00;
           Byte.x00; Byte.x00; Byte.x2a; Byte.x00]
        = Done (receiver, Some (idMismatch ConnectionRequestPid Byte.x01))).
Proof.
  repeat split; try reflexivity.
Qed.

(** ** Lengths of the encodings *)

(** C5: [Encode] returns 10 bytes for a connection request, 9 for a
    connection accepted, 2 for a connection rejected and [2 + 4 * n] for an
    acknowledge of [n >= 1] ids; for a channel operation it returns 2 bytes,
    the identifier and the channel, one fewer than [channelOperationLength]. *)
Theorem Encode_lengths :
  (forall p, exists data,
      ConnectionRequestPacket.Encode p = Done (data, nil_error)
      /\ Z.of_nat (List.length data) = 10)
  /\ (forall p, exists data,
      ConnectionAcceptedPacket.Encode p = Done (data, nil_error)
      /\ Z.of_nat (List.length data) = 9)
  /\ (forall p, exists data,
      ConnectionRejectedPacket.Encode p = Done (data, nil_error)
      /\ Z.of_nat (List.length data) = 2)
  /\ (forall id ids, exists data,
      AcknowledgePacket.Encode
        {| AcknowledgePacket.sequenceIds := id :: ids |}
      = Done (data, nil_error)
      /\ Z.of_nat (List.length data)
         = 2 + 4 * Z.of_nat (List.length (id :: ids)))
  /\ (forall p, exists data,
      ChannelOpPacket.Encode p = Done (data, nil_error)
      /\ Z.of_nat (List.length data) = 2
      /\ Z.of_nat (List.length data) <> channelOperationLength).
Proof.
  repeat split.
  - intro p. eexists. split; reflexivity.
  - intro p. eexists. split; reflexivity.
  - intro p. eexists. split; reflexivity.
  - intros id ids. rewrite Acknowledge_Encode_ids by discriminate.
    eexists. split; [reflexivity|].
    rewrite length_app, length_flat_PutUint32. simpl List.length. lia.
  - intro p. eexists. split; [reflexivity|]. split; [reflexivity|].
    unfold channelOperationLength. simpl. lia.
Qed.

(** ** When [Encode] fails *)

(** C7: [Encode] of an acknowledge returns the error "sequenceIds array is
    empty!" (and no bytes) exactly when its id list is empty, and returns
    bytes with a nil error otherwise; [Encode] of a connection request, a
    connection accepted, a connection rejected and a channel operation
    returns bytes with a nil error for all field values, and none of them
    panics. *)
Theorem Encode_error_iff_no_ids :
  (forall p,
      AcknowledgePacket.Encode p
      = match AcknowledgePacket.sequenceIds p with
        | [] => Done ([], Some emptySequenceIds)
        | ids =>
            Done ([AcknowledgedPid; to_byte (Z.of_nat (List.length ids))]
                    ++ flat_map BigEndian.PutUint32 ids, nil_error)
        end)
  /\ (forall p, exists data,
        ConnectionRequestPacket.Encode p = Done (data, nil_error))
  /\ (forall p, exists data,
        ConnectionAcceptedPacket.Encode p = Done (data, nil_error))
  /\ (forall p, exists data,
        ConnectionRejectedPacket.Encode p = Done (data, nil_error))
  /\ (forall p, exists data,
        ChannelOpPacket.Encode p = Done (data, nil_error)).
Proof.
  split; [|repeat split; intro p; eexists; reflexivity].
  intros [ids]. cbn [AcknowledgePacket.sequenceIds].
  destruct ids as [|id ids]; [reflexivity|].
  now apply Acknowledge_Encode_ids.
Qed.

(** ** The decode preamble *)

(** C8, as the claim words it, fails on an empty buffer: with expected
    length 0 and expected identifier 0 the check succeeds although no byte
    was there to consume. *)
Lemma checkPidAndLength_empty_buffer :
  let r := checkPidAndLength [] ConnectionRequestPid 0 false in
  fst r = nil_error /\ Buffer.Len (snd r) <> Buffer.Len [] - 1.
Proof.
  split; [reflexivity | discriminate].
Qed.

(** C8, amended: for an expected length of at least one byte,
    [checkPidAndLength] in exact mode returns the length-mismatch error
    unless the buffer length equals the expected length, and in at-least
    mode unless the buffer length is at least the expected length; once the
    length check passes it reads the first byte and returns the
    identifier-mismatch error, which names the expected and the observed
    identifier, unless that byte is the expected one; and whenever it
    returns no error it has consumed exactly one byte, the identifier. *)
Theorem checkPidAndLength_contract buf expectedId expectedLength atLeast :
  1 <= expectedLength ->
  (atLeast = false -> Buffer.Len buf <> expectedLength ->
   checkPidAndLength buf expectedId expectedLength atLeast
   = (Some (lengthMismatch expectedLength), buf))
  /\ (atLeast = true -> Buffer.Len buf < expectedLength ->
      checkPidAndLength buf expectedId expectedLength atLeast
      = (Some (lengthMismatchAtLeast expectedLength), buf))
  /\ (lengthOk buf expectedLength atLeast ->
      exists pid rest,
        buf = pid :: rest
        /\ checkPidAndLength buf expectedId expectedLength atLeast
           = (if Byte.eqb pid expectedId then nil_error
              else Some (idMismatch expectedId pid), rest))
  /\ (forall rest,
        checkPidAndLength buf expectedId expectedLength atLeast
        = (nil_error, rest) ->
        buf = expectedId :: rest
        /\ Buffer.Len rest = Buffer.Len buf - 1).
Proof.
  intro Hpos.
  assert (Hread : lengthOk buf expectedLength atLeast ->
                  exists pid rest,
                    buf = pid :: rest
                    /\ checkPidAndLength buf expectedId expectedLength atLeast
                       = (if Byte.eqb pid expectedId then nil_error
                          else Some (idMismatch expectedId pid), rest)).
  { intro Hok. destruct buf as [|pid rest].
    - exfalso. destruct atLeast; unfold lengthOk, Buffer.Len in Hok;
        simpl in Hok; lia.
    - exists pid, rest. split; [reflexivity|].
      now apply checkPidAndLength_read. }
  assert (Hdone : forall rest,
             checkPidAndLength buf expectedId expectedLength atLeast
             = (nil_error, rest) -> buf = expectedId :: rest).
  { intros rest H.
    assert (Hok : lengthOk buf expectedLength atLeast).
    { destruct atLeast; unfold lengthOk.
      - destruct (Z.lt_ge_cases (Buffer.Len buf) expectedLength) as [Hlt|Hge];
          [|exact Hge].
        rewrite checkPidAndLength_atLeast_bad in H by assumption.
        discriminate.
      - destruct (Z.eq_dec (Buffer.Len buf) expectedLength) as [Heq|Hne];
          [exact Heq|].
        rewrite checkPidAndLength_exact_bad in H by assumption.
        discriminate. }
    destruct (Hread Hok) as (pid & rest' & -> & Hr).
    rewrite Hr in H. destruct (Byte.eqb pid expectedId) eqn:E.
    - apply byte_eqb_eq in E. injection H as <-. now subst pid.
    - discriminate. }
  split; [|split; [|split]].
  - intros -> Hne. now apply checkPidAndLength_exact_bad.
  - intros -> Hlt. now apply checkPidAndLength_atLeast_bad.
  - exact Hread.
  - intros rest H. apply Hdone in H. subst buf. split; [reflexivity|].
    unfold Buffer.Len. simpl List.length. lia.
Qed.

Lemma checkPidAndLength_contract_witness :
  1 <= 3
  /\ checkPidAndLength [Byte.x0b; Byte.x01; Byte.x07] ChannelOperationPid 3 false
     = (nil_error, [Byte.x01; Byte.x07])
  /\ Buffer.Len [Byte.x01; Byte.x07]
     = Buffer.Len [Byte.x0b; Byte.x01; Byte.x07] - 1.
Proof.
  split; [lia|].
  destruct (checkPidAndLength_contract
              [Byte.x0b; Byte.x01; Byte.x07] ChannelOperationPid 3 false
              ltac:(lia)) as (_ & _ & _ & H).
  split; [reflexivity|].
  exact (proj2 (H [Byte.x01; Byte.x07] eq_refl)).
Defined.

(** ** A wrong identifier leaves the receiver alone *)

(** C9: for each of the five decoders, a buffer of the length the decoder
    asks for (exactly 10, 9, 2 and 3 bytes; at least 6 for the acknowledge)
    whose first byte is not the identifier of the kind makes [Decode] return
    the identifier-mismatch error, and the receiver comes back with every
    field as it was. *)
Theorem Decode_id_mismatch_keeps_receiver :
  (forall packet pid rest,
      pid <> ConnectionRequestPid ->
      Buffer.Len (pid :: rest) = connectionRequestLength ->
      ConnectionRequestPacket.Decode packet (pid :: rest)
      = Done (packet, Some (idMismatch ConnectionRequestPid pid)))
  /\ (forall packet pid rest,
      pid <> ConnectionAcceptedPid ->
      Buffer.Len (pid :: rest) = connectionAcceptedLength ->
      ConnectionAcceptedPacket.Decode packet (pid :: rest)
      = Done (packet, Some (idMismatch ConnectionAcceptedPid pid)))
  /\ (forall packet pid rest,
      pid <> ConnectionRejectedPid ->
      Buffer.Len (pid :: rest) = connectionRejectedLength ->
      ConnectionRejectedPacket.Decode packet (pid :: rest)
      = Done (packet, Some (idMismatch ConnectionRejectedPid pid)))
  /\ (forall packet pid rest,
      pid <> AcknowledgedPid ->
      acknowledgedBaseLength <= Buffer.Len (pid :: rest) ->
      AcknowledgePacket.Decode packet (pid :: rest)
      = Done (packet, Some (idMismatch AcknowledgedPid pid)))
  /\ (forall packet pid rest,
      pid <> ChannelOperationPid ->
      Buffer.Len (pid :: rest) = channelOperationLength ->
      ChannelOpPacket.Decode packet (pid :: rest)
      = Done (packet, Some (idMismatch ChannelOperationPid pid))).
Proof.
  repeat split; intros packet pid rest Hne Hlen.
  - unfold ConnectionRequestPacket.Decode, Buffer.NewBuffer.
    now rewrite checkPidAndLength_mismatch.
  - unfold ConnectionAcceptedPacket.Decode, Buffer.NewBuffer.
    now rewrite checkPidAndLength_mismatch.
  - unfold ConnectionRejectedPacket.Decode, Buffer.NewBuffer.
    now rewrite checkPidAndLength_mismatch.
  - unfold AcknowledgePacket.Decode, Buffer.NewBuffer.
    now rewrite checkPidAndLength_mismatch.
  - unfold ChannelOpPacket.Decode, Buffer.NewBuffer.
    now rewrite checkPidAndLength_mismatch.
Qed.

Lemma Decode_id_mismatch_keeps_receiver_witness :
  (Byte.x0c <> ConnectionAcceptedPid
   /\ Buffer.Len (Byte.x0c :: repeat Byte.xff 8) = connectionAcceptedLength
   /\ ConnectionAcceptedPacket.Decode
        {| ConnectionAcceptedPacket.ServerId := 77 |}
        (Byte.x0c :: repeat Byte.xff 8)
      = Done ({| ConnectionAcceptedPacket.ServerId := 77 |},
              Some (idMismatch ConnectionAcceptedPid Byte.x0c)))
  /\ (Byte.x0b <> AcknowledgedPid
      /\ acknowledgedBaseLength
         <= Buffer.Len [Byte.x0b; Byte.x01; Byte.x00; Byte.x00; Byte.x00;
                        Byte.x09]
      /\ AcknowledgePacket.Decode
           {| AcknowledgePacket.sequenceIds := [3; 5] |}
           [Byte.x0b; Byte.x01; Byte.x00; Byte.x00; Byte.x00; Byte.x09]
         = Done ({| AcknowledgePacket.sequenceIds := [3; 5] |},
                 Some (idMismatch AcknowledgedPid Byte.x0b))).
Proof.
  destruct Decode_id_mismatch_keeps_receiver as (_ & Hacc & _ & Hack & _).
  split.
  - split; [discriminate|]. split; [reflexivity|].
    apply Hacc; [discriminate | reflexivity].
  - split; [discriminate|]. split; [vm_compute; discriminate|].
    apply Hack; [discriminate | vm_compute; discriminate].
Defined.

(** ** More than 255 acknowledged ids *)

(** C10: for a list of [n > 255] sequence ids, [Encode] of the acknowledge
    returns no error; its output is the identifier, the count byte
    [n mod 256] and then all [n] ids on four bytes each, so the count byte
    differs from the number of ids that follow. *)
Theorem Acknowledge_Encode_count_wraps (ids : list Z) :
  let n := Z.of_nat (List.length ids) in
  255 < n ->
  AcknowledgePacket.Encode {| AcknowledgePacket.sequenceIds := ids |}
  = Done ([AcknowledgedPid; to_byte n] ++ flat_map BigEndian.PutUint32 ids,
          nil_error)
  /\ byte_val (to_byte n) = n mod 256
  /\ byte_val (to_byte n) <> n
  /\ Z.of_nat (List.length (flat_map BigEndian.PutUint32 ids)) = 4 * n.
Proof.
  intros n Hn. split; [|split; [|split]].
  - apply Acknowledge_Encode_ids. intros ->. simpl in n. lia.
  - apply byte_val_to_byte.
  - pose proof (byte_val_range (to_byte n)). lia.
  - rewrite length_flat_PutUint32. lia.
Qed.

Lemma Acknowledge_Encode_count_wraps_witness :
  255 < Z.of_nat (List.length (repeat 7 256))
  /\ AcknowledgePacket.Encode
       {| AcknowledgePacket.sequenceIds := repeat 7 256 |}
     = Done ([AcknowledgedPid; Byte.x00]
               ++ flat_map BigEndian.PutUint32 (repeat 7 256), nil_error).
Proof.
  assert (H : 255 < Z.of_nat (List.length (repeat 7 256)))
    by (vm_compute; reflexivity).
  split; [exact H|].
  exact (proj1 (Acknowledge_Encode_count_wraps (repeat 7 256) H)).
Defined.

(** ** The acknowledge with no ids *)

(** C4, as the claim words it, fails on the two-byte buffer: [Decode]
    rejects [0x0A, 0x00] because an acknowledge must hold at least
    [acknowledgedBaseLength] bytes. *)
Lemma Acknowledge_Decode_two_bytes_rejected :
  AcknowledgePacket.Decode {| AcknowledgePacket.sequenceIds := [] |}
    [Byte.x0a; Byte.x00]
  = Done ({| AcknowledgePacket.sequenceIds := [] |},
          Some (lengthMismatchAtLeast acknowledgedBaseLength)).
Proof. reflexivity. Qed.

(** C4, amended: [Encode] of an acknowledge with an empty id list fails,
    while [Decode] of a buffer that starts with 0x0A and a zero count byte
    succeeds as soon as the buffer holds the six bytes every acknowledge
    must have, and then leaves the id sequence of the receiver as it was
    (empty for a fresh packet); with fewer than six bytes it returns the
    length-mismatch error. *)
Theorem Acknowledge_empty_asymmetry (receiver : AcknowledgePacket.t)
    (rest : list byte) :
  AcknowledgePacket.Encode {| AcknowledgePacket.sequenceIds := [] |}
  = Done ([], Some emptySequenceIds)
  /\ AcknowledgePacket.Decode receiver (Byte.x0a :: Byte.x00 :: rest)
     = Done (receiver,
             if Buffer.Len rest <? 4
             then Some (lengthMismatchAtLeast acknowledgedBaseLength)
             else nil_error).
Proof.
  split; [reflexivity|].
  unfold AcknowledgePacket.Decode, Buffer.NewBuffer.
  assert (Hlen : Buffer.Len (Byte.x0a :: Byte.x00 :: rest)
                 = Buffer.Len rest + 2)
    by (unfold Buffer.Len; simpl List.length; lia).
  destruct (Buffer.Len rest <? 4) eqn:E.
  - apply Z.ltb_lt in E.
    rewrite checkPidAndLength_atLeast_bad
      by (unfold acknowledgedBaseLength; lia).
    reflexivity.
  - apply Z.ltb_ge in E.
    change Byte.x0a with AcknowledgedPid.
    rewrite checkPidAndLength_match
      by (unfold lengthOk, acknowledgedBaseLength, Buffer.Len in *;
          simpl List.length; lia).
    reflexivity.
Qed.

(** ** Buffers on which [Decode] panics *)

(** C1: the decoders read their multi-byte fields with [ReadBytes], whose
    argument is a delimiter, and hand the slice to a [binary.BigEndian]
    reader that indexes it unchecked.  An acknowledge whose count byte
    announces two ids while one is present, a connection request and a
    connection accepted whose id starts with the byte 8 all pass
    [checkPidAndLength] and then panic; [Decode] returns no error there. *)
Theorem Decode_panics :
  (forall receiver,
      AcknowledgePacket.Decode receiver
        [Byte.x0a; Byte.x02; Byte.x00; Byte.x00; Byte.x00; Byte.x07]
      = Panic)
  /\ (forall receiver,
      ConnectionRequestPacket.Decode receiver
        [Byte.x00; Byte.x08; Byte.x00; Byte.x00; Byte.x00; Byte.x00;
         Byte.x00; Byte.x00; Byte.x00; Byte.x00]
      = Panic)
  /\ (forall receiver,
      ConnectionAcceptedPacket.Decode receiver
        [Byte.x01; Byte.x08; Byte.x00; Byte.x00; Byte.x00; Byte.x00;
         Byte.x00; Byte.x00; Byte.x00]
      = Panic).
Proof.
  repeat split; intro receiver; reflexivity.
Qed.

(** ** Decoding what was encoded *)

(** C2: [Decode] after [Encode] gives the packet back for every connection
    rejected, and fails for the other kinds: every channel operation
    encodes to two bytes, which its [Decode] rejects for not being three; a
    connection request with a non-zero protocol version comes back with
    version 0; an acknowledge of the ids 7 and 99, and a connection accepted
    whose server id has 8 as its first byte, make [Decode] panic. *)
Theorem Decode_after_Encode :
  (forall receiver p,
      roundtrip ConnectionRejectedPacket.Encode
                ConnectionRejectedPacket.Decode receiver p
      = Done (p, nil_error))
  /\ (forall receiver p,
      roundtrip ChannelOpPacket.Encode ChannelOpPacket.Decode receiver p
      = Done (receiver, Some (lengthMismatch channelOperationLength)))
  /\ (forall receiver,
      roundtrip ConnectionRequestPacket.Encode
                ConnectionRequestPacket.Decode receiver
        {| ConnectionRequestPacket.ClientId := 42;
           ConnectionRequestPacket.ProtocolVersion := Byte.x05 |}
      = Done ({| ConnectionRequestPacket.ClientId := 42;
                 ConnectionRequestPacket.ProtocolVersion := Byte.x00 |},
              nil_error))
  /\ (forall receiver,
      roundtrip AcknowledgePacket.Encode AcknowledgePacket.Decode receiver
        {| AcknowledgePacket.sequenceIds := [7; 99] |}
      = Panic)
  /\ (forall receiver,
      roundtrip ConnectionAcceptedPacket.Encode
                ConnectionAcceptedPacket.Decode receiver
        {| ConnectionAcceptedPacket.ServerId := 8 * 2 ^ 56 |}
      = Panic).
Proof.
  split; [|split; [|split; [|split]]].
  - intros receiver [reason]. unfold roundtrip.
    cbn [ConnectionRejectedPacket.Encode Buffer.Grow bind
         connectionRejectedLength Z.ltb Z.compare].
    unfold ConnectionRejectedPacket.Decode, Buffer.NewBuffer, Buffer.Bytes,
      Buffer.WriteByte. cbn [app ConnectionRejectedPacket.reason].
    rewrite checkPidAndLength_match by reflexivity.
    reflexivity.
  - intros receiver p. reflexivity.
  - intro receiver. reflexivity.
  - intro receiver. reflexivity.
  - intro receiver. reflexivity.
Qed.

(** ** The container packet *)

Lemma beVal_PutUint16 (v : Z) :
  ContainerPacket.beVal (BigEndian.PutUint16 v) = v mod 65536.
Proof.
  unfold ContainerPacket.beVal, BigEndian.PutUint16. cbn [fold_left].
  rewrite !byte_val_to_byte, Z.shiftr_div_pow2 by lia.
  change (2 ^ 8) with 256. change 65536 with (256 * 256).
  rewrite Z.rem_mul_r by lia. lia.
Qed.

Lemma take_app (a b : list byte) (n : Z) :
  Z.of_nat (List.length a) = n ->
  ContainerPacket.take n (a ++ b) = Some (a, b).
Proof.
  intros <-. unfold ContainerPacket.take, Buffer.Len.
  rewrite length_app, Nat2Z.id.
  replace (Z.of_nat (List.length a + List.length b)
           <? Z.of_nat (List.length a)) with false
    by (symmetry; apply Z.ltb_ge; lia).
  rewrite firstn_app, skipn_app, firstn_all, skipn_all, Nat.sub_diag.
  cbn [firstn skipn app]. now rewrite app_nil_r.
Qed.

Lemma take_within (buf : Buffer.t) (n : Z) :
  n <= Buffer.Len buf ->
  ContainerPacket.take n buf
  = Some (firstn (Z.to_nat n) buf, skipn (Z.to_nat n) buf).
Proof.
  intro Hle. unfold ContainerPacket.take.
  now replace (Buffer.Len buf <? n) with false
    by (symmetry; apply Z.ltb_ge; lia).
Qed.

Lemma flagsByte_bits (p : ContainerPacket.t) :
  Z.testbit (byte_val (ContainerPacket.flagsByte p)) 0
  = ContainerPacket.reliable p
  /\ Z.testbit (byte_val (ContainerPacket.flagsByte p)) 1
     = ContainerPacket.ordered p
  /\ Z.testbit (byte_val (ContainerPacket.flagsByte p)) 2
     = ContainerPacket.compressed p.
Proof.
  destruct p as [ch [|] [|] [|] sid oid body]; vm_compute; auto.
Qed.

(** C6, as the claim words it, fails for a compressed container: the
    length prefix and the bytes after it are those of the compressed
    payload.  With a compressor that puts a one-byte header before the
    data, a compressed container of three payload bytes, neither reliable
    nor ordered, encodes to 9 bytes, not to the 1 + 1 + 1 + 2 + 3 = 8 that
    the formula over the payload of the packet gives. *)
Lemma Container_compressed_length :
  let p := {| ContainerPacket.channel := Byte.x01;
              ContainerPacket.reliable := false;
              ContainerPacket.ordered := false;
              ContainerPacket.compressed := true;
              ContainerPacket.sequenceId := 0;
              ContainerPacket.orderedId := 0;
              ContainerPacket.payload := [Byte.x61; Byte.x62; Byte.x63] |} in
  let data := ContainerPacket.Encode (fun l => Byte.x00 :: l) p in
  data = [Byte.x0c; Byte.x01; Byte.x04; Byte.x00; Byte.x04;
          Byte.x00; Byte.x61; Byte.x62; Byte.x63]
  /\ Z.of_nat (List.length data)
     <> 1 + 1 + 1 + 4 * Z.b2z (ContainerPacket.reliable p)
        + 2 * Z.b2z (ContainerPacket.ordered p)
        + 2 + Z.of_nat (List.length (ContainerPacket.payload p)).
Proof.
  split; [reflexivity | discriminate].
Qed.

Section ContainerProperties.

Variables compress decompress : list byte -> list byte.

Lemma Container_Encode_layout (p : ContainerPacket.t) :
  ContainerPacket.Encode compress p
  = [ContainerPid; ContainerPacket.channel p; ContainerPacket.flagsByte p]
      ++ sequenceField p ++ orderedField p
      ++ BigEndian.PutUint16
           (Z.of_nat (List.length (ContainerPacket.wirePayload compress p)))
      ++ ContainerPacket.wirePayload compress p.
Proof.
  unfold ContainerPacket.Encode, sequenceField, orderedField,
    WriteUInt32, WriteUInt16, Buffer.Write, Buffer.WriteByte, Buffer.Bytes,
    Buffer.NewBuffer.
  destruct (ContainerPacket.reliable p), (ContainerPacket.ordered p);
    cbn [app]; rewrite <- ?app_assoc; reflexivity.
Qed.

Lemma Container_Decode_Encode_flags (p : ContainerPacket.t) :
  exists q,
    ContainerPacket.Decode decompress
         (ContainerPacket.Encode compress p) = inl q
    /\ ContainerPacket.channel q = ContainerPacket.channel p
    /\ ContainerPacket.reliable q = ContainerPacket.reliable p
    /\ ContainerPacket.ordered q = ContainerPacket.ordered p
    /\ ContainerPacket.compressed q = ContainerPacket.compressed p.
Proof.
  rewrite Container_Encode_layout.
  set (body := ContainerPacket.wirePayload compress p).
  destruct (flagsByte_bits p) as (Hr & Ho & Hc).
  assert (Hbody : ContainerPacket.beVal
                    (BigEndian.PutUint16 (Z.of_nat (List.length body)))
                  <= Buffer.Len body).
  { rewrite beVal_PutUint16. unfold Buffer.Len.
    apply Z.mod_le; lia. }
  unfold ContainerPacket.Decode, Buffer.NewBuffer.
  cbn [app].
  rewrite checkPidAndLength_match.
  2:{ unfold lengthOk, containerBaseLength, Buffer.Len.
      cbn [List.length]. rewrite !length_app. cbn [List.length
        BigEndian.PutUint16]. lia. }
  cbn [Buffer.ReadByte]. rewrite Hr, Ho, Hc.
  unfold sequenceField, orderedField.
  destruct (ContainerPacket.reliable p), (ContainerPacket.ordered p);
    cbn [app];
    repeat (rewrite take_app by reflexivity);
    rewrite (take_within body) by exact Hbody;
    eexists; (split; [reflexivity|]); cbn; auto.
Qed.

(** C6, amended: for every container, whatever its reliable and ordered
    flags, the encoding is the identifier, the channel, the flags byte, the
    four-byte sequence id exactly when reliable is set, the two-byte
    ordered id exactly when ordered is set, the two-byte length prefix and
    the payload as it is written; its length is 1 + 1 + 1 + 4 [reliable]
    + 2 [ordered] + 2 + the length of the payload as it is written, which
    is the payload of the packet when compressed is unset and the output
    of the external compressor when it is set; and [Decode] of it succeeds
    with the same reliable and ordered flags (and the same channel and
    compressed flag). *)
Theorem Container_flag_conditionality (p : ContainerPacket.t) :
  let body := ContainerPacket.wirePayload compress p in
  body = (if ContainerPacket.compressed p
          then compress (ContainerPacket.payload p)
          else ContainerPacket.payload p)
  /\ ContainerPacket.Encode compress p
     = [ContainerPid; ContainerPacket.channel p; ContainerPacket.flagsByte p]
         ++ sequenceField p ++ orderedField p
         ++ BigEndian.PutUint16 (Z.of_nat (List.length body)) ++ body
  /\ List.length (sequenceField p)
     = (if ContainerPacket.reliable p then 4 else 0)%nat
  /\ List.length (orderedField p)
     = (if ContainerPacket.ordered p then 2 else 0)%nat
  /\ Z.of_nat (List.length (ContainerPacket.Encode compress p))
     = 1 + 1 + 1 + 4 * Z.b2z (ContainerPacket.reliable p)
       + 2 * Z.b2z (ContainerPacket.ordered p)
       + 2 + Z.of_nat (List.length body)
  /\ exists q,
       ContainerPacket.Decode decompress
         (ContainerPacket.Encode compress p) = inl q
       /\ ContainerPacket.reliable q = ContainerPacket.reliable p
       /\ ContainerPacket.ordered q = ContainerPacket.ordered p
       /\ ContainerPacket.channel q = ContainerPacket.channel p
       /\ ContainerPacket.compressed q = ContainerPacket.compressed p.
Proof.
  intro body. split; [reflexivity|]. split; [apply Container_Encode_layout|].
  split; [unfold sequenceField; now destruct (ContainerPacket.reliable p)|].
  split; [unfold orderedField; now destruct (ContainerPacket.ordered p)|].
  split.
  - rewrite Container_Encode_layout. fold body.
    unfold sequenceField, orderedField.
    destruct (ContainerPacket.reliable p), (ContainerPacket.ordered p);
      cbn [app List.length BigEndian.PutUint32 BigEndian.PutUint16 Z.b2z];
      rewrite ?length_app; cbn [List.length BigEndian.PutUint16]; lia.
  - destruct (Container_Decode_Encode_flags p) as (q & Hq & Hch & Hr & Ho & Hc).
    exists q. auto.
Qed.

End ContainerProperties.

(** * Further properties of the code *)

(** ** Big-endian fields *)

Lemma land_low_high (a b k : Z) :
  0 <= k -> Z.land (a mod 2 ^ k) (Z.shiftl b k) = 0.
Proof.
  intro Hk. apply Z.bits_inj'. intros n Hn.
  rewrite Z.land_spec, Z.testbit_mod_pow2, Z.shiftl_spec, Z.bits_0 by lia.
  destruct (Z.ltb_spec n k) as [Hlt|Hge].
  - rewrite (Z.testbit_neg_r b) by lia. now rewrite andb_false_r.
  - reflexivity.
Qed.

Lemma lor_next_byte (v k : Z) :
  0 <= k ->
  Z.lor (v mod 2 ^ k) (Z.shiftl (byte_val (to_byte (Z.shiftr v k))) k)
  = v mod 2 ^ (k + 8).
Proof.
  intro Hk.
  pose proof (Z.add_lor_land (v mod 2 ^ k)
                (Z.shiftl (byte_val (to_byte (Z.shiftr v k))) k)) as Hadd.
  rewrite land_low_high, Z.add_0_r in Hadd by assumption.
  rewrite Hadd.
  rewrite byte_val_to_byte, Z.shiftr_div_pow2, Z.shiftl_mul_pow2 by lia.
  rewrite Z.pow_add_r by lia. change (2 ^ 8) with 256.
  rewrite Z.rem_mul_r by lia. lia.
Qed.

Lemma byte_val_low (v : Z) : byte_val (to_byte v) = v mod 2 ^ 8.
Proof. apply byte_val_to_byte. Qed.

Lemma Uint16_PutUint16 (v : Z) :
  BigEndian.Uint16 (BigEndian.PutUint16 v) = Done (v mod 2 ^ 16).
Proof.
  unfold BigEndian.Uint16, BigEndian.PutUint16. f_equal.
  rewrite byte_val_low.
  now rewrite (lor_next_byte v 8) by lia.
Qed.

Lemma Uint32_PutUint32 (v : Z) :
  BigEndian.Uint32 (BigEndian.PutUint32 v) = Done (v mod 2 ^ 32).
Proof.
  unfold BigEndian.Uint32, BigEndian.PutUint32. f_equal.
  rewrite byte_val_low.
  rewrite (lor_next_byte v 8) by lia. cbn [Z.add Pos.add Pos.succ].
  rewrite (lor_next_byte v 16) by lia. cbn [Z.add Pos.add Pos.succ].
  now rewrite (lor_next_byte v 24) by lia.
Qed.

Lemma Uint64_PutUint64 (v : Z) :
  BigEndian.Uint64 (BigEndian.PutUint64 v) = Done (v mod 2 ^ 64).
Proof.
  unfold BigEndian.Uint64, BigEndian.PutUint64. f_equal.
  rewrite byte_val_low.
  rewrite (lor_next_byte v 8) by lia. cbn [Z.add Pos.add Pos.succ].
  rewrite (lor_next_byte v 16) by lia. cbn [Z.add Pos.add Pos.succ].
  rewrite (lor_next_byte v 24) by lia. cbn [Z.add Pos.add Pos.succ].
  rewrite (lor_next_byte v 32) by lia. cbn [Z.add Pos.add Pos.succ].
  rewrite (lor_next_byte v 40) by lia. cbn [Z.add Pos.add Pos.succ].
  rewrite (lor_next_byte v 48) by lia. cbn [Z.add Pos.add Pos.succ].
  now rewrite (lor_next_byte v 56) by lia.
Qed.

(** X1: each writer appends to the buffer, after what it already held,
    exactly 2, 4 and 8 bytes, and the big-endian reader of the same width
    reads those bytes back as the value modulo 2^16, 2^32 and 2^64. *)
Theorem WriteUInt_appends_big_endian (buffer : Buffer.t) (val : Z) :
  (exists temp,
      WriteUInt16 buffer val = buffer ++ temp
      /\ List.length temp = 2%nat
      /\ BigEndian.Uint16 temp = Done (val mod 2 ^ 16))
  /\ (exists temp,
      WriteUInt32 buffer val = buffer ++ temp
      /\ List.length temp = 4%nat
      /\ BigEndian.Uint32 temp = Done (val mod 2 ^ 32))
  /\ (exists temp,
      WriteUInt64 buffer val = buffer ++ temp
      /\ List.length temp = 8%nat
      /\ BigEndian.Uint64 temp = Done (val mod 2 ^ 64)).
Proof.
  split; [|split].
  - exists (BigEndian.PutUint16 val).
    split; [reflexivity|]. split; [reflexivity|]. apply Uint16_PutUint16.
  - exists (BigEndian.PutUint32 val).
    split; [reflexivity|]. split; [reflexivity|]. apply Uint32_PutUint32.
  - exists (BigEndian.PutUint64 val).
    split; [reflexivity|]. split; [reflexivity|]. apply Uint64_PutUint64.
Qed.

(** ** Buffers of the wrong length *)

(** X2: a buffer whose length is not the one a decoder asks for (anything
    but 10, 9, 2 and 3 bytes for the fixed packets, fewer than 6 bytes for
    the acknowledge; the empty buffer included) makes [Decode] return the
    length-mismatch error without a panic, and the receiver keeps every
    field. *)
Theorem Decode_wrong_length_keeps_receiver :
  (forall packet data,
      Buffer.Len data <> connectionRequestLength ->
      ConnectionRequestPacket.Decode packet data
      = Done (packet, Some (lengthMismatch connectionRequestLength)))
  /\ (forall packet data,
      Buffer.Len data <> connectionAcceptedLength ->
      ConnectionAcceptedPacket.Decode packet data
      = Done (packet, Some (lengthMismatch connectionAcceptedLength)))
  /\ (forall packet data,
      Buffer.Len data <> connectionRejectedLength ->
      ConnectionRejectedPacket.Decode packet data
      = Done (packet, Some (lengthMismatch connectionRejectedLength)))
  /\ (forall packet data,
      Buffer.Len data < acknowledgedBaseLength ->
      AcknowledgePacket.Decode packet data
      = Done (packet, Some (lengthMismatchAtLeast acknowledgedBaseLength)))
  /\ (forall packet data,
      Buffer.Len data <> channelOperationLength ->
      ChannelOpPacket.Decode packet data
      = Done (packet, Some (lengthMismatch channelOperationLength))).
Proof.
  repeat split; intros packet data Hlen.
  - unfold ConnectionRequestPacket.Decode, Buffer.NewBuffer.
    now rewrite checkPidAndLength_exact_bad.
  - unfold ConnectionAcceptedPacket.Decode, Buffer.NewBuffer.
    now rewrite checkPidAndLength_exact_bad.
  - unfold ConnectionRejectedPacket.Decode, Buffer.NewBuffer.
    now rewrite checkPidAndLength_exact_bad.
  - unfold AcknowledgePacket.Decode, Buffer.NewBuffer.
    now rewrite checkPidAndLength_atLeast_bad.
  - unfold ChannelOpPacket.Decode, Buffer.NewBuffer.
    now rewrite checkPidAndLength_exact_bad.
Qed.

Lemma Decode_wrong_length_keeps_receiver_witness :
  (Buffer.Len [] <> connectionRequestLength
   /\ ConnectionRequestPacket.Decode
        {| ConnectionRequestPacket.ClientId := 9;
           ConnectionRequestPacket.ProtocolVersion := Byte.x01 |} []
      = Done ({| ConnectionRequestPacket.ClientId := 9;
                 ConnectionRequestPacket.ProtocolVersion := Byte.x01 |},
              Some (lengthMismatch connectionRequestLength)))
  /\ (Buffer.Len [Byte.x0a; Byte.x01; Byte.x00; Byte.x00; Byte.x00]
      < acknowledgedBaseLength
      /\ AcknowledgePacket.Decode
           {| AcknowledgePacket.sequenceIds := [1] |}
           [Byte.x0a; Byte.x01; Byte.x00; Byte.x00; Byte.x00]
         = Done ({| AcknowledgePacket.sequenceIds := [1] |},
                 Some (lengthMismatchAtLeast acknowledgedBaseLength))).
Proof.
  destruct Decode_wrong_length_keeps_receiver as (Hreq & _ & _ & Hack & _).
  split.
  - split; [discriminate|]. apply Hreq. discriminate.
  - split; [reflexivity|]. apply Hack. reflexivity.
Defined.

(** ** The connection rejected packet *)

Lemma ConnectionRejected_Decode_cases (receiver : ConnectionRejectedPacket.t)
    (data : list byte) :
  ConnectionRejectedPacket.Decode receiver data
  = match data with
    | [pid; reason] =>
        if Byte.eqb pid ConnectionRejectedPid
        then Done ({| ConnectionRejectedPacket.reason := reason |}, nil_error)
        else Done (receiver, Some (idMismatch ConnectionRejectedPid pid))
    | _ => Done (receiver, Some (lengthMismatch connectionRejectedLength))
    end.
Proof.
  unfold ConnectionRejectedPacket.Decode, Buffer.NewBuffer.
  destruct data as [|pid [|reason [|c rest]]].
  - now rewrite checkPidAndLength_exact_bad by discriminate.
  - now rewrite checkPidAndLength_exact_bad by discriminate.
  - rewrite checkPidAndLength_read by reflexivity.
    destruct (Byte.eqb pid ConnectionRejectedPid); reflexivity.
  - rewrite checkPidAndLength_exact_bad; [reflexivity|].
    unfold Buffer.Len, connectionRejectedLength. simpl List.length. lia.
Qed.

(** X3: [Decode] of a connection rejected never panics, and every buffer
    it accepts is the very buffer [Encode] produces from the decoded
    packet. *)
Theorem ConnectionRejected_Decode_then_Encode :
  (forall receiver data, exists p e,
      ConnectionRejectedPacket.Decode receiver data = Done (p, e))
  /\ (forall receiver data p,
      ConnectionRejectedPacket.Decode receiver data = Done (p, nil_error) ->
      ConnectionRejectedPacket.Encode p = Done (data, nil_error)).
Proof.
  split; intros receiver data.
  - rewrite ConnectionRejected_Decode_cases.
    destruct data as [|pid [|reason [|c rest]]]; try (eexists; eexists; reflexivity).
    destruct (Byte.eqb pid ConnectionRejectedPid);
      eexists; eexists; reflexivity.
  - intros p Hdec. rewrite ConnectionRejected_Decode_cases in Hdec.
    destruct data as [|pid [|reason [|c rest]]]; try discriminate.
    destruct (Byte.eqb pid ConnectionRejectedPid) eqn:E; [|discriminate].
    apply byte_eqb_eq in E. injection Hdec as <-. subst pid. reflexivity.
Qed.

Lemma ConnectionRejected_Decode_then_Encode_witness :
  ConnectionRejectedPacket.Decode
    {| ConnectionRejectedPacket.reason := Byte.x00 |} [Byte.x02; Byte.x01]
  = Done ({| ConnectionRejectedPacket.reason := Byte.x01 |}, nil_error)
  /\ ConnectionRejectedPacket.Encode
       {| ConnectionRejectedPacket.reason := Byte.x01 |}
     = Done ([Byte.x02; Byte.x01], nil_error).
Proof.
  split; [reflexivity|].
  exact (proj2 ConnectionRejected_Decode_then_Encode
           {| ConnectionRejectedPacket.reason := Byte.x00 |}
           [Byte.x02; Byte.x01]
           {| ConnectionRejectedPacket.reason := Byte.x01 |} eq_refl).
Defined.

(** ** The channel operation packet *)


(** ** The two versions of the connection request *)

(** X5: the connection request of protocol.go, which checks the length and
    the identifier inline, and the one that calls [checkPidAndLength] are
    the same functions: [Encode] returns the same result for every packet
    and [Decode] the same result, error text included, for every receiver
    and every buffer. *)
Theorem ProtocolGo_agrees (packet : ConnectionRequestPacket.t)
    (data : list byte) :
  ProtocolGo.Encode packet = ConnectionRequestPacket.Encode packet
  /\ ProtocolGo.Decode packet data
     = ConnectionRequestPacket.Decode packet data.
Proof.
  split; [reflexivity|].
  unfold ProtocolGo.Decode, ConnectionRequestPacket.Decode, Buffer.NewBuffer.
  destruct (Z.eq_dec (Buffer.Len data) connectionRequestLength) as [Heq|Hne].
  - destruct data as [|pid rest]; [discriminate Heq|].
    rewrite checkPidAndLength_read by exact Heq.
    unfold connectionRequestLength in Heq. rewrite Heq.
    cbn [Z.eqb Pos.eqb negb Buffer.ReadByte].
    destruct (Byte.eqb pid ConnectionRequestPid); reflexivity.
  - rewrite checkPidAndLength_exact_bad by assumption.
    apply Z.eqb_neq in Hne. unfold connectionRequestLength in Hne.
    rewrite Hne. reflexivity.
Qed.

(** ** Eight-byte ids read with [ReadBytes(8)] *)

Lemma ConnectionAccepted_Decode_bytes receiver b0 b1 b2 b3 b4 b5 b6 b7 :
  ConnectionAcceptedPacket.Decode receiver
    [ConnectionAcceptedPid; b0; b1; b2; b3; b4; b5; b6; b7]
  = if delimFree Byte.x08 [b0; b1; b2; b3; b4; b5; b6]
    then v <- BigEndian.Uint64 [b0; b1; b2; b3; b4; b5; b6; b7] ;;
         Done ({| ConnectionAcceptedPacket.ServerId := v |}, nil_error)
    else Panic.
Proof.
  unfold ConnectionAcceptedPacket.Decode, Buffer.NewBuffer.
  rewrite checkPidAndLength_match by reflexivity.
  unfold delimFree, Buffer.ReadBytes.
  cbn [forallb Buffer.readSlice].
  destruct (Byte.eqb b0 Byte.x08); [reflexivity|].
  destruct (Byte.eqb b1 Byte.x08); [reflexivity|].
  destruct (Byte.eqb b2 Byte.x08); [reflexivity|].
  destruct (Byte.eqb b3 Byte.x08); [reflexivity|].
  destruct (Byte.eqb b4 Byte.x08); [reflexivity|].
  destruct (Byte.eqb b5 Byte.x08); [reflexivity|].
  destruct (Byte.eqb b6 Byte.x08); [reflexivity|].
  destruct (Byte.eqb b7 Byte.x08); reflexivity.
Qed.

Lemma ConnectionRequest_Decode_bytes receiver b0 b1 b2 b3 b4 b5 b6 b7 b8 :
  ConnectionRequestPacket.Decode receiver
    [ConnectionRequestPid; b0; b1; b2; b3; b4; b5; b6; b7; b8]
  = if delimFree Byte.x08 [b0; b1; b2; b3; b4; b5; b6]
    then v <- BigEndian.Uint64 [b0; b1; b2; b3; b4; b5; b6; b7] ;;
         Done ({| ConnectionRequestPacket.ClientId := v;
                  ConnectionRequestPacket.ProtocolVersion :=
                    if Byte.eqb b7 Byte.x08 then b8 else Byte.x00 |},
               nil_error)
    else Panic.
Proof.
  unfold ConnectionRequestPacket.Decode, Buffer.NewBuffer.
  rewrite checkPidAndLength_match by reflexivity.
  unfold delimFree, Buffer.ReadBytes.
  cbn [forallb Buffer.readSlice].
  destruct (Byte.eqb b0 Byte.x08); [reflexivity|].
  destruct (Byte.eqb b1 Byte.x08); [reflexivity|].
  destruct (Byte.eqb b2 Byte.x08); [reflexivity|].
  destruct (Byte.eqb b3 Byte.x08); [reflexivity|].
  destruct (Byte.eqb b4 Byte.x08); [reflexivity|].
  destruct (Byte.eqb b5 Byte.x08); [reflexivity|].
  destruct (Byte.eqb b6 Byte.x08); [reflexivity|].
  destruct (Byte.eqb b7 Byte.x08); [reflexivity|].
  destruct (Byte.eqb b8 Byte.x08); reflexivity.
Qed.

(** X6: for a server id that fits 64 bits, [Decode] of what [Encode]
    returned gives the packet back when none of the first seven bytes of
    the id is 8, and panics when one of them is. *)
Theorem ConnectionAccepted_roundtrip receiver (id : Z) :
  fits 64 id ->
  roundtrip ConnectionAcceptedPacket.Encode ConnectionAcceptedPacket.Decode
    receiver {| ConnectionAcceptedPacket.ServerId := id |}
  = if delimFree Byte.x08 (firstn 7 (BigEndian.PutUint64 id))
    then Done ({| ConnectionAcceptedPacket.ServerId := id |}, nil_error)
    else Panic.
Proof.
  intro Hfit. unfold roundtrip.
  change (ConnectionAcceptedPacket.Encode
            {| ConnectionAcceptedPacket.ServerId := id |})
    with (Done (ConnectionAcceptedPid :: BigEndian.PutUint64 id, nil_error)).
  cbn [bind].
  pose proof (Uint64_PutUint64 id) as Hval.
  rewrite Z.mod_small in Hval by exact Hfit.
  unfold BigEndian.PutUint64 in *.
  rewrite ConnectionAccepted_Decode_bytes.
  match goal with
  | |- context [BigEndian.Uint64 ?l] =>
      replace (BigEndian.Uint64 l) with (@Done Z id)
        by (symmetry; exact Hval)
  end.
  reflexivity.
Qed.

Lemma ConnectionAccepted_roundtrip_witness :
  fits 64 77
  /\ roundtrip ConnectionAcceptedPacket.Encode ConnectionAcceptedPacket.Decode
       {| ConnectionAcceptedPacket.ServerId := 0 |}
       {| ConnectionAcceptedPacket.ServerId := 77 |}
     = Done ({| ConnectionAcceptedPacket.ServerId := 77 |}, nil_error).
Proof.
  assert (H : fits 64 77) by (unfold fits; lia).
  split; [exact H|].
  exact (ConnectionAccepted_roundtrip
           {| ConnectionAcceptedPacket.ServerId := 0 |} 77 H).
Defined.

(** X7: for a client id that fits 64 bits, [Decode] of what [Encode]
    returned panics when one of the first seven bytes of the id is 8;
    otherwise it gives the client id back, with the protocol version of the
    packet when the last byte of the id is 8 and with version 0 when it is
    not. *)
Theorem ConnectionRequest_roundtrip receiver (id : Z) (version : byte) :
  fits 64 id ->
  roundtrip ConnectionRequestPacket.Encode ConnectionRequestPacket.Decode
    receiver {| ConnectionRequestPacket.ClientId := id;
                ConnectionRequestPacket.ProtocolVersion := version |}
  = if delimFree Byte.x08 (firstn 7 (BigEndian.PutUint64 id))
    then Done ({| ConnectionRequestPacket.ClientId := id;
                  ConnectionRequestPacket.ProtocolVersion :=
                    if Byte.eqb (to_byte id) Byte.x08
                    then version else Byte.x00 |}, nil_error)
    else Panic.
Proof.
  intro Hfit. unfold roundtrip.
  change (ConnectionRequestPacket.Encode
            {| ConnectionRequestPacket.ClientId := id;
               ConnectionRequestPacket.ProtocolVersion := version |})
    with (Done (ConnectionRequestPid :: BigEndian.PutUint64 id ++ [version],
                nil_error)).
  cbn [bind].
  pose proof (Uint64_PutUint64 id) as Hval.
  rewrite Z.mod_small in Hval by exact Hfit.
  unfold BigEndian.PutUint64 in *. cbn [app].
  rewrite ConnectionRequest_Decode_bytes.
  match goal with
  | |- context [BigEndian.Uint64 ?l] =>
      replace (BigEndian.Uint64 l) with (@Done Z id)
        by (symmetry; exact Hval)
  end.
  reflexivity.
Qed.

Lemma ConnectionRequest_roundtrip_witness :
  fits 64 520
  /\ roundtrip ConnectionRequestPacket.Encode ConnectionRequestPacket.Decode
       {| ConnectionRequestPacket.ClientId := 0;
          ConnectionRequestPacket.ProtocolVersion := Byte.x00 |}
       {| ConnectionRequestPacket.ClientId := 520;
          ConnectionRequestPacket.ProtocolVersion := Byte.x03 |}
     = Done ({| ConnectionRequestPacket.ClientId := 520;
                ConnectionRequestPacket.ProtocolVersion := Byte.x03 |},
             nil_error).
Proof.
  assert (H : fits 64 520) by (unfold fits; lia).
  split; [exact H|].
  exact (ConnectionRequest_roundtrip
           {| ConnectionRequestPacket.ClientId := 0;
              ConnectionRequestPacket.ProtocolVersion := Byte.x00 |}
           520 Byte.x03 H).
Defined.

(** X8: on an arbitrary buffer, [Decode] of a connection accepted panics
    exactly when the buffer is the identifier followed by eight bytes with
    an 8 among the first seven of them, and [Decode] of a connection
    request exactly when it is the identifier followed by nine bytes with
    an 8 among the first seven. *)
Theorem Decode_panics_iff :
  (forall receiver data,
      ConnectionAcceptedPacket.Decode receiver data = Panic
      <-> exists rest,
            data = ConnectionAcceptedPid :: rest
            /\ List.length rest = 8%nat
            /\ delimFree Byte.x08 (firstn 7 rest) = false)
  /\ (forall receiver data,
      ConnectionRequestPacket.Decode receiver data = Panic
      <-> exists rest,
            data = ConnectionRequestPid :: rest
            /\ List.length rest = 9%nat
            /\ delimFree Byte.x08 (firstn 7 rest) = false).
Proof.
  split; intros receiver data; split.
  - intro Hp.
    destruct (Z.eq_dec (Buffer.Len data) connectionAcceptedLength)
      as [Heq|Hne].
    2:{ unfold ConnectionAcceptedPacket.Decode, Buffer.NewBuffer in Hp.
        rewrite checkPidAndLength_exact_bad in Hp by assumption.
        discriminate. }
    destruct data as [|pid rest]; [discriminate Heq|].
    destruct (Byte.byte_eq_dec pid ConnectionAcceptedPid) as [->|Hpid].
    2:{ unfold ConnectionAcceptedPacket.Decode, Buffer.NewBuffer in Hp.
        rewrite checkPidAndLength_mismatch in Hp by assumption.
        discriminate. }
    assert (Hlen : List.length rest = 8%nat).
    { unfold Buffer.Len, connectionAcceptedLength in Heq.
      simpl List.length in Heq. lia. }
    exists rest. split; [reflexivity|]. split; [exact Hlen|].
    do 8 (destruct rest as [|? rest]; [discriminate Hlen|]).
    destruct rest; [|discriminate Hlen].
    rewrite ConnectionAccepted_Decode_bytes in Hp. cbn [firstn].
    destruct (delimFree _ _); [discriminate Hp | reflexivity].
  - intros (rest & -> & Hlen & Hfree).
    do 8 (destruct rest as [|? rest]; [discriminate Hlen|]).
    destruct rest; [|discriminate Hlen].
    rewrite ConnectionAccepted_Decode_bytes. cbn [firstn] in Hfree.
    now rewrite Hfree.
  - intro Hp.
    destruct (Z.eq_dec (Buffer.Len data) connectionRequestLength)
      as [Heq|Hne].
    2:{ unfold ConnectionRequestPacket.Decode, Buffer.NewBuffer in Hp.
        rewrite checkPidAndLength_exact_bad in Hp by assumption.
        discriminate. }
    destruct data as [|pid rest]; [discriminate Heq|].
    destruct (Byte.byte_eq_dec pid ConnectionRequestPid) as [->|Hpid].
    2:{ unfold ConnectionRequestPacket.Decode, Buffer.NewBuffer in Hp.
        rewrite checkPidAndLength_mismatch in Hp by assumption.
        discriminate. }
    assert (Hlen : List.length rest = 9%nat).
    { unfold Buffer.Len, connectionRequestLength in Heq.
      simpl List.length in Heq. lia. }
    exists rest. split; [reflexivity|]. split; [exact Hlen|].
    do 9 (destruct rest as [|? rest]; [discriminate Hlen|]).
    destruct rest; [|discriminate Hlen].
    rewrite ConnectionRequest_Decode_bytes in Hp. cbn [firstn].
    destruct (delimFree _ _); [discriminate Hp | reflexivity].
  - intros (rest & -> & Hlen & Hfree).
    do 9 (destruct rest as [|? rest]; [discriminate Hlen|]).
    destruct rest; [|discriminate Hlen].
    rewrite ConnectionRequest_Decode_bytes. cbn [firstn] in Hfree.
    now rewrite Hfree.
Qed.

(** ** The acknowledge decoder *)

Lemma store_length (s : list Z) (i : nat) (v : Z) (s' : list Z) :
  AcknowledgePacket.store s i v = Done s' -> List.length s' = List.length s.
Proof.
  revert i s'. induction s as [|x s IH]; intros i s' H.
  - destruct i; discriminate H.
  - destruct i as [|i]; cbn [AcknowledgePacket.store] in H.
    + injection H as <-. reflexivity.
    + destruct (AcknowledgePacket.store s i v) as [s''|] eqn:E;
        [|discriminate H].
      cbn [bind] in H. injection H as <-.
      simpl List.length. f_equal. now apply (IH i).
Qed.

Lemma store_at (pre post : list Z) (x v : Z) :
  AcknowledgePacket.store (pre ++ x :: post) (List.length pre) v
  = Done (pre ++ v :: post).
Proof.
  induction pre as [|y pre IH]; [reflexivity|].
  cbn [app List.length AcknowledgePacket.store]. now rewrite IH.
Qed.

Lemma readIds_length (todo i : nat) (buf : Buffer.t) (ids ids' : list Z)
    (buf' : Buffer.t) :
  AcknowledgePacket.readIds todo i buf ids = Done (ids', buf') ->
  List.length ids' = List.length ids.
Proof.
  revert i buf ids. induction todo as [|todo IH]; intros i buf ids H.
  - injection H as <- _. reflexivity.
  - cbn [AcknowledgePacket.readIds] in H.
    destruct (Buffer.ReadBytes buf Byte.x04) as [[sequenceBytes eof] rest].
    destruct (BigEndian.Uint32 sequenceBytes) as [v|]; [|discriminate H].
    cbn [bind] in H.
    destruct (AcknowledgePacket.store ids i v) as [ids1|] eqn:E;
      [|discriminate H].
    cbn [bind] in H. apply IH in H. rewrite H.
    now apply store_length in E.
Qed.

(** X9: when [Decode] of an acknowledge reports no error, the buffer is
    the identifier, a count byte and at least four more bytes; with a zero
    count the receiver comes back as it was, and otherwise the decoded
    packet holds exactly as many ids as the count byte says. *)
Theorem Acknowledge_Decode_count receiver data p :
  AcknowledgePacket.Decode receiver data = Done (p, nil_error) ->
  exists count rest,
    data = AcknowledgedPid :: count :: rest
    /\ 4 <= Buffer.Len rest
    /\ (if byte_val count <? 1 then p = receiver
        else Z.of_nat (List.length (AcknowledgePacket.sequenceIds p))
             = byte_val count).
Proof.
  intro H. unfold AcknowledgePacket.Decode, Buffer.NewBuffer in H.
  destruct (Z.lt_ge_cases (Buffer.Len data) acknowledgedBaseLength)
    as [Hlt|Hge].
  { rewrite checkPidAndLength_atLeast_bad in H by assumption.
    discriminate H. }
  destruct data as [|pid [|count rest]];
    try (unfold Buffer.Len, acknowledgedBaseLength in Hge;
         simpl List.length in Hge; lia).
  destruct (Byte.byte_eq_dec pid AcknowledgedPid) as [->|Hpid].
  2:{ rewrite checkPidAndLength_mismatch in H by assumption.
      discriminate H. }
  rewrite checkPidAndLength_match in H by exact Hge.
  cbn [Buffer.ReadByte] in H.
  exists count, rest. split; [reflexivity|]. split.
  { unfold Buffer.Len, acknowledgedBaseLength in *.
    simpl List.length in Hge. lia. }
  destruct (byte_val count <? 1) eqn:E.
  - now injection H as <-.
  - apply Z.ltb_ge in E.
    destruct (AcknowledgePacket.readIds _ _ _ _) as [[ids buf]|] eqn:R;
      [|discriminate H].
    cbn [bind] in H. injection H as <-.
    apply readIds_length in R. cbn [AcknowledgePacket.sequenceIds] in *.
    rewrite R, repeat_length. lia.
Qed.

Lemma Acknowledge_Decode_count_witness :
  AcknowledgePacket.Decode {| AcknowledgePacket.sequenceIds := [] |}
    [Byte.x0a; Byte.x01; Byte.x00; Byte.x00; Byte.x01; Byte.x00]
  = Done ({| AcknowledgePacket.sequenceIds := [256] |}, nil_error)
  /\ exists count rest,
       [Byte.x0a; Byte.x01; Byte.x00; Byte.x00; Byte.x01; Byte.x00]
       = AcknowledgedPid :: count :: rest
       /\ 4 <= Buffer.Len rest
       /\ (if byte_val count <? 1
           then {| AcknowledgePacket.sequenceIds := [256] |}
                = {| AcknowledgePacket.sequenceIds := [] |}
           else Z.of_nat (List.length [256]) = byte_val count).
Proof.
  split; [reflexivity|].
  exact (Acknowledge_Decode_count
           {| AcknowledgePacket.sequenceIds := [] |}
           [Byte.x0a; Byte.x01; Byte.x00; Byte.x00; Byte.x01; Byte.x00]
           {| AcknowledgePacket.sequenceIds := [256] |} eq_refl).
Defined.

(** X10: for one to 255 sequence ids, [Encode] of the acknowledge returns
    no error and the count byte it writes equals the number of ids, each
    of which follows on four bytes. *)
Theorem Acknowledge_Encode_count_exact (ids : list Z) :
  let n := Z.of_nat (List.length ids) in
  1 <= n <= 255 ->
  exists count,
    AcknowledgePacket.Encode {| AcknowledgePacket.sequenceIds := ids |}
    = Done (AcknowledgedPid :: count :: flat_map BigEndian.PutUint32 ids,
            nil_error)
    /\ byte_val count = n
    /\ Z.of_nat (List.length (flat_map BigEndian.PutUint32 ids)) = 4 * n.
Proof.
  intros n Hn. exists (to_byte n). split; [|split].
  - apply Acknowledge_Encode_ids. intros ->. simpl in n. lia.
  - rewrite byte_val_to_byte. apply Z.mod_small. lia.
  - rewrite length_flat_PutUint32. lia.
Qed.

Lemma Acknowledge_Encode_count_exact_witness :
  1 <= Z.of_nat (List.length [7; 99]) <= 255
  /\ exists count,
       AcknowledgePacket.Encode {| AcknowledgePacket.sequenceIds := [7; 99] |}
       = Done (AcknowledgedPid :: count
                 :: flat_map BigEndian.PutUint32 [7; 99], nil_error)
       /\ byte_val count = Z.of_nat (List.length [7; 99])
       /\ Z.of_nat (List.length (flat_map BigEndian.PutUint32 [7; 99]))
          = 4 * Z.of_nat (List.length [7; 99]).
Proof.
  assert (H : 1 <= Z.of_nat (List.length [7; 99]) <= 255)
    by (simpl; lia).
  split; [exact H|].
  exact (Acknowledge_Encode_count_exact [7; 99] H).
Defined.

Lemma ReadBytes_four (b0 b1 b2 b3 : byte) (tail : list byte) :
  delimFree Byte.x04 [b0; b1; b2] = true ->
  tail = [] \/ Byte.eqb b3 Byte.x04 = true ->
  exists eof,
    Buffer.ReadBytes ([b0; b1; b2; b3] ++ tail) Byte.x04
    = ([b0; b1; b2; b3], eof, tail).
Proof.
  unfold delimFree, Buffer.ReadBytes. cbn [forallb app Buffer.readSlice].
  intros Hfree Hend.
  destruct (Byte.eqb b0 Byte.x04); [discriminate Hfree|].
  destruct (Byte.eqb b1 Byte.x04); [discriminate Hfree|].
  destruct (Byte.eqb b2 Byte.x04); [discriminate Hfree|].
  destruct (Byte.eqb b3 Byte.x04).
  - now exists false.
  - destruct Hend as [->|Hend]; [|discriminate Hend].
    now exists true.
Qed.

Lemma readIds_readable (ids pre post : list Z) :
  readable ids = true ->
  Forall (fits 32) ids ->
  List.length post = List.length ids ->
  AcknowledgePacket.readIds (List.length ids) (List.length pre)
    (flat_map BigEndian.PutUint32 ids) (pre ++ post)
  = Done (pre ++ ids, []).
Proof.
  revert pre post. induction ids as [|id ids IH]; intros pre post Hr Hfit Hlen.
  - destruct post; [reflexivity | discriminate Hlen].
  - destruct post as [|x post]; [discriminate Hlen|].
    injection Hlen as Hlen. inversion Hfit as [|? ? Hid Hrest]; subst.
    assert (Hhead : delimFree Byte.x04
                      (firstn 3 (BigEndian.PutUint32 id)) = true
                    /\ (flat_map BigEndian.PutUint32 ids = []
                        \/ Byte.eqb (to_byte id) Byte.x04 = true)
                    /\ readable ids = true).
    { cbn [readable] in Hr. destruct ids as [|id' ids].
      - repeat split; [exact Hr | now left].
      - apply andb_true_iff in Hr. destruct Hr as [He Hr].
        unfold endsAtDelim in He. apply andb_true_iff in He.
        destruct He as [He1 He2]. repeat split; [exact He1 | now right | exact Hr]. }
    destruct Hhead as (Hfree & Hend & Hr').
    cbn [List.length AcknowledgePacket.readIds flat_map].
    unfold BigEndian.PutUint32 at 1.
    destruct (ReadBytes_four _ _ _ _ _ Hfree Hend) as [eof ->].
    pose proof (Uint32_PutUint32 id) as Hval.
    rewrite Z.mod_small in Hval by exact Hid.
    unfold BigEndian.PutUint32 in Hval.
    match goal with
    | |- context [BigEndian.Uint32 ?l] =>
        replace (BigEndian.Uint32 l) with (@Done Z id)
          by (symmetry; exact Hval)
    end.
    cbn [bind]. rewrite store_at. cbn [bind].
    replace (S (List.length pre)) with (List.length (pre ++ [id]))
      by (rewrite length_app; simpl; lia).
    replace (pre ++ id :: post) with ((pre ++ [id]) ++ post)
      by (now rewrite <- app_assoc).
    rewrite IH by assumption.
    now rewrite <- app_assoc.
Qed.

(** X11: an acknowledge of one to 255 ids that fit 32 bits comes back
    from [Decode] of its own encoding, id for id, when no id has the byte 4
    among its first three bytes and every id but the last has 4 as its
    last byte. *)
Theorem Acknowledge_roundtrip_readable receiver (ids : list Z) :
  ids <> [] ->
  Z.of_nat (List.length ids) <= 255 ->
  Forall (fits 32) ids ->
  readable ids = true ->
  roundtrip AcknowledgePacket.Encode AcknowledgePacket.Decode receiver
    {| AcknowledgePacket.sequenceIds := ids |}
  = Done ({| AcknowledgePacket.sequenceIds := ids |}, nil_error).
Proof.
  intros Hne Hmax Hfit Hr. unfold roundtrip.
  rewrite Acknowledge_Encode_ids by assumption. cbn [bind app].
  assert (Hn : 1 <= Z.of_nat (List.length ids))
    by (destruct ids; [contradiction | simpl List.length; lia]).
  unfold AcknowledgePacket.Decode, Buffer.NewBuffer.
  rewrite checkPidAndLength_match.
  2:{ unfold lengthOk, acknowledgedBaseLength, Buffer.Len.
      cbn [List.length]. rewrite length_flat_PutUint32. lia. }
  cbn [Buffer.ReadByte].
  rewrite byte_val_to_byte, Z.mod_small by lia.
  replace (Z.of_nat (List.length ids) <? 1) with false
    by (symmetry; apply Z.ltb_ge; lia).
  rewrite Nat2Z.id. cbn [AcknowledgePacket.sequenceIds].
  pose proof (readIds_readable ids [] (repeat 0 (List.length ids))
                Hr Hfit (repeat_length _ _)) as Hread.
  cbn [app List.length] in Hread. rewrite Hread.
  reflexivity.
Qed.

Lemma Acknowledge_roundtrip_readable_witness :
  [4; 260; 7] <> []
  /\ Z.of_nat (List.length [4; 260; 7]) <= 255
  /\ Forall (fits 32) [4; 260; 7]
  /\ readable [4; 260; 7] = true
  /\ roundtrip AcknowledgePacket.Encode AcknowledgePacket.Decode
       {| AcknowledgePacket.sequenceIds := [] |}
       {| AcknowledgePacket.sequenceIds := [4; 260; 7] |}
     = Done ({| AcknowledgePacket.sequenceIds := [4; 260; 7] |}, nil_error).
Proof.
  assert (H1 : [4; 260; 7] <> []) by discriminate.
  assert (H2 : Z.of_nat (List.length [4; 260; 7]) <= 255)
    by (simpl; lia).
  assert (H3 : Forall (fits 32) [4; 260; 7])
    by (repeat constructor; unfold fits; lia).
  assert (H4 : readable [4; 260; 7] = true) by reflexivity.
  split; [exact H1|]. split; [exact H2|].
  split; [exact H3|]. split; [exact H4|].
  exact (Acknowledge_roundtrip_readable
           {| AcknowledgePacket.sequenceIds := [] |} [4; 260; 7]
           H1 H2 H3 H4).
Defined.

(** ** Through the [Packet] interface *)

Lemma Packet_Encode_starts_with_Pid (p : Packet.t) (data : list byte) :
  Packet.Encode p = Done (data, nil_error) ->
  exists rest, data = Packet.Pid p :: rest.
Proof.
  destruct p as [p|p|p|p|p]; cbn [Packet.Encode Packet.Pid]; intro H.
  - injection H as <-. eexists. reflexivity.
  - injection H as <-. eexists. reflexivity.
  - injection H as <-. eexists. reflexivity.
  - destruct p as [ids]. destruct ids as [|id ids]; [discriminate H|].
    rewrite Acknowledge_Encode_ids in H by discriminate.
    injection H as <-. eexists. reflexivity.
  - injection H as <-. eexists. reflexivity.
Qed.

Lemma Packet_Decode_foreign_Pid (receiver : Packet.t) (pid : byte)
    (rest : list byte) :
  pid <> Packet.Pid receiver ->
  exists e, Packet.Decode receiver (pid :: rest) = Done (receiver, Some e).
Proof.
  intro Hpid.
  destruct receiver as [p|p|p|p|p]; cbn [Packet.Decode Packet.Pid] in *.
  - unfold ConnectionRequestPacket.Decode, Buffer.NewBuffer.
    destruct (Z.eq_dec (Buffer.Len (pid :: rest)) connectionRequestLength).
    + rewrite checkPidAndLength_mismatch by assumption.
      eexists. reflexivity.
    + rewrite checkPidAndLength_exact_bad by assumption.
      eexists. reflexivity.
  - unfold ConnectionAcceptedPacket.Decode, Buffer.NewBuffer.
    destruct (Z.eq_dec (Buffer.Len (pid :: rest)) connectionAcceptedLength).
    + rewrite checkPidAndLength_mismatch by assumption.
      eexists. reflexivity.
    + rewrite checkPidAndLength_exact_bad by assumption.
      eexists. reflexivity.
  - unfold ConnectionRejectedPacket.Decode, Buffer.NewBuffer.
    destruct (Z.eq_dec (Buffer.Len (pid :: rest)) connectionRejectedLength).
    + rewrite checkPidAndLength_mismatch by assumption.
      eexists. reflexivity.
    + rewrite checkPidAndLength_exact_bad by assumption.
      eexists. reflexivity.
  - unfold AcknowledgePacket.Decode, Buffer.NewBuffer.
    destruct (Z.lt_ge_cases (Buffer.Len (pid :: rest))
                acknowledgedBaseLength).
    + rewrite checkPidAndLength_atLeast_bad by assumption.
      eexists. reflexivity.
    + rewrite checkPidAndLength_mismatch by assumption.
      eexists. reflexivity.
  - unfold ChannelOpPacket.Decode, Buffer.NewBuffer.
    destruct (Z.eq_dec (Buffer.Len (pid :: rest)) channelOperationLength).
    + rewrite checkPidAndLength_mismatch by assumption.
      eexists. reflexivity.
    + rewrite checkPidAndLength_exact_bad by assumption.
      eexists. reflexivity.
Qed.

(** X12: no packet kind decodes another kind's encoding: when [Encode]
    of a packet succeeds and the receiver is of a different kind, [Decode]
    into that receiver returns an error, does not panic, and leaves the
    receiver as it was. *)
Theorem Packet_Decode_rejects_other_kinds (receiver p : Packet.t)
    (data : list byte) :
  Packet.sameKind receiver p = false ->
  Packet.Encode p = Done (data, nil_error) ->
  exists e, Packet.Decode receiver data = Done (receiver, Some e).
Proof.
  intros Hkind Henc.
  destruct (Packet_Encode_starts_with_Pid p data Henc) as [rest ->].
  apply Packet_Decode_foreign_Pid.
  destruct receiver, p; try discriminate Hkind;
    cbn [Packet.Pid]; intro Heq; vm_compute in Heq; discriminate Heq.
Qed.

Lemma Packet_Decode_rejects_other_kinds_witness :
  Packet.sameKind
    (Packet.ConnectionRequest
       {| ConnectionRequestPacket.ClientId := 1;
          ConnectionRequestPacket.ProtocolVersion := Byte.x00 |})
    (Packet.Acknowledge {| AcknowledgePacket.sequenceIds := [7; 99] |})
  = false
  /\ Packet.Encode
       (Packet.Acknowledge {| AcknowledgePacket.sequenceIds := [7; 99] |})
     = Done ([Byte.x0a; Byte.x02; Byte.x00; Byte.x00; Byte.x00; Byte.x07;
              Byte.x00; Byte.x00; Byte.x00; Byte.x63], nil_error)
  /\ exists e,
       Packet.Decode
         (Packet.ConnectionRequest
            {| ConnectionRequestPacket.ClientId := 1;
               ConnectionRequestPacket.ProtocolVersion := Byte.x00 |})
         [Byte.x0a; Byte.x02; Byte.x00; Byte.x00; Byte.x00; Byte.x07;
          Byte.x00; Byte.x00; Byte.x00; Byte.x63]
       = Done (Packet.ConnectionRequest
                 {| ConnectionRequestPacket.ClientId := 1;
                    ConnectionRequestPacket.ProtocolVersion := Byte.x00 |},
               Some e).
Proof.
  split; [reflexivity|]. split; [reflexivity|].
  exact (Packet_Decode_rejects_other_kinds
           (Packet.ConnectionRequest
              {| ConnectionRequestPacket.ClientId := 1;
                 ConnectionRequestPacket.ProtocolVersion := Byte.x00 |})
           (Packet.Acknowledge {| AcknowledgePacket.sequenceIds := [7; 99] |})
           _ eq_refl eq_refl).
Defined.

(** ** The encoding determines the packet *)

Lemma PutUint64_inj (a b : Z) :
  fits 64 a -> fits 64 b ->
  BigEndian.PutUint64 a = BigEndian.PutUint64 b -> a = b.
Proof.
  intros Ha Hb Heq.
  pose proof (Uint64_PutUint64 a) as Va.
  pose proof (Uint64_PutUint64 b) as Vb.
  rewrite Z.mod_small in Va, Vb by assumption.
  rewrite Heq, Vb in Va. now injection Va.
Qed.

Lemma PutUint32_inj (a b : Z) :
  fits 32 a -> fits 32 b ->
  BigEndian.PutUint32 a = BigEndian.PutUint32 b -> a = b.
Proof.
  intros Ha Hb Heq.
  pose proof (Uint32_PutUint32 a) as Va.
  pose proof (Uint32_PutUint32 b) as Vb.
  rewrite Z.mod_small in Va, Vb by assumption.
  rewrite Heq, Vb in Va. now injection Va.
Qed.

Lemma flat_PutUint32_inj (l l' : list Z) :
  Forall (fits 32) l -> Forall (fits 32) l' ->
  flat_map BigEndian.PutUint32 l = flat_map BigEndian.PutUint32 l' ->
  l = l'.
Proof.
  intro Hl. revert l'. induction Hl as [|x l Hx Hl IH]; intros l' Hl' Heq.
  - destruct l'; [reflexivity | discriminate Heq].
  - destruct Hl' as [|y l' Hy Hl']; [discriminate Heq|].
    cbn [flat_map] in Heq. unfold BigEndian.PutUint32 at 1 3 in Heq.
    cbn [app] in Heq.
    injection Heq as H0 H1 H2 H3 Htail.
    f_equal.
    + apply PutUint32_inj; try assumption.
      unfold BigEndian.PutUint32. now rewrite H0, H1, H2, H3.
    + now apply IH.
Qed.

(** X13: the bytes [Encode] returns determine the packet.  Two packets,
    of any kinds, whose integer fields hold values of their Go types and
    for which [Encode] returns the same result are equal, except that two
    channel operations may differ in the operation, which is not
    written. *)
Theorem Packet_Encode_injective (p q : Packet.t) :
  Packet.wellTyped p -> Packet.wellTyped q ->
  Packet.Encode p = Packet.Encode q ->
  Packet.sameOnWire p q.
Proof.
  intros Hp Hq Heq.
  assert (Hack : forall a, exists r,
             AcknowledgePacket.Encode a = Done r
             /\ (r = ([], Some emptySequenceIds)
                 /\ AcknowledgePacket.sequenceIds a = []
                 \/ r = (AcknowledgedPid
                           :: to_byte (Z.of_nat (List.length
                                (AcknowledgePacket.sequenceIds a)))
                           :: flat_map BigEndian.PutUint32
                                (AcknowledgePacket.sequenceIds a),
                         nil_error))).
  { intros [ids]. destruct ids as [|id ids].
    - eexists. split; [reflexivity|]. now left.
    - rewrite Acknowledge_Encode_ids by discriminate.
      eexists. split; [reflexivity|]. now right. }
  destruct p as [p|p|p|p|p], q as [q|q|q|q|q];
    cbn [Packet.Encode Packet.wellTyped] in *;
    try (destruct (Hack p) as (r & Hr & [[-> _]| ->]);
         rewrite Hr in Heq; discriminate Heq);
    try (destruct (Hack q) as (r & Hr & [[-> _]| ->]);
         rewrite Hr in Heq; discriminate Heq);
    try discriminate Heq.
  - destruct p as [a va], q as [b vb].
    cbn [ConnectionRequestPacket.ClientId] in *.
    injection Heq as H7 H6 H5 H4 H3 H2 H1 H0 Hv.
    left. f_equal. f_equal; [|exact Hv].
    apply PutUint64_inj; try assumption.
    unfold BigEndian.PutUint64.
    now rewrite H7, H6, H5, H4, H3, H2, H1, H0.
  - destruct p as [a], q as [b].
    cbn [ConnectionAcceptedPacket.ServerId] in *.
    injection Heq as H7 H6 H5 H4 H3 H2 H1 H0.
    left. f_equal. f_equal.
    apply PutUint64_inj; try assumption.
    unfold BigEndian.PutUint64.
    now rewrite H7, H6, H5, H4, H3, H2, H1, H0.
  - destruct p as [a], q as [b]. injection Heq as ->. now left.
  - destruct (Hack p) as (rp & Hrp & Hp').
    destruct (Hack q) as (rq & Hrq & Hq').
    rewrite Hrp, Hrq in Heq. injection Heq as ->.
    destruct p as [a], q as [b]. cbn [AcknowledgePacket.sequenceIds] in *.
    left. f_equal. f_equal.
    destruct Hp' as [[-> Ha]| ->], Hq' as [[Hq' Hb]|Hq'];
      try discriminate Hq'.
    + congruence.
    + injection Hq' as _ Hflat. symmetry.
      now apply flat_PutUint32_inj.
  - destruct p as [op ch], q as [op' ch']. injection Heq as ->.
    right. exists op, op', ch'. split; reflexivity.
Qed.

Lemma Packet_Encode_injective_witness :
  Packet.wellTyped
    (Packet.ChannelOp {| ChannelOpPacket.operation := OPEN_CHANNEL;
                         ChannelOpPacket.channel := Byte.x05 |})
  /\ Packet.wellTyped
       (Packet.ChannelOp {| ChannelOpPacket.operation := CLOSE_CHANNEL;
                            ChannelOpPacket.channel := Byte.x05 |})
  /\ Packet.Encode
       (Packet.ChannelOp {| ChannelOpPacket.operation := OPEN_CHANNEL;
                            ChannelOpPacket.channel := Byte.x05 |})
     = Packet.Encode
         (Packet.ChannelOp {| ChannelOpPacket.operation := CLOSE_CHANNEL;
                              ChannelOpPacket.channel := Byte.x05 |})
  /\ Packet.sameOnWire
       (Packet.ChannelOp {| ChannelOpPacket.operation := OPEN_CHANNEL;
                            ChannelOpPacket.channel := Byte.x05 |})
       (Packet.ChannelOp {| ChannelOpPacket.operation := CLOSE_CHANNEL;
                            ChannelOpPacket.channel := Byte.x05 |}).
Proof.
  split; [exact I|]. split; [exact I|]. split; [reflexivity|].
  exact (Packet_Encode_injective
           (Packet.ChannelOp {| ChannelOpPacket.operation := OPEN_CHANNEL;
                                ChannelOpPacket.channel := Byte.x05 |})
           (Packet.ChannelOp {| ChannelOpPacket.operation := CLOSE_CHANNEL;
                                ChannelOpPacket.channel := Byte.x05 |})
           I I eq_refl).
Defined.

(** ** Acknowledges that cannot be decoded *)

Lemma readSlice_delimFree (delim : byte) (l : list byte) :
  delimFree delim l = true ->
  Buffer.readSlice l delim = (l, true, []).
Proof.
  induction l as [|c l IH]; intro H; [reflexivity|].
  cbn [delimFree forallb] in H. apply andb_true_iff in H.
  destruct H as [Hc Hl]. cbn [Buffer.readSlice].
  apply negb_true_iff in Hc. rewrite Hc.
  unfold delimFree in IH. now rewrite IH.
Qed.

(** X14: an acknowledge buffer that announces two ids or more and has no
    byte equal to 4 after the count byte makes [Decode] panic: the first
    [ReadBytes(4)] takes all that is left and the second id is read from
    an empty slice. *)
Theorem Acknowledge_Decode_panics_without_delimiter receiver
    (count : byte) (rest : list byte) :
  2 <= byte_val count ->
  4 <= Buffer.Len rest ->
  delimFree Byte.x04 rest = true ->
  AcknowledgePacket.Decode receiver (AcknowledgedPid :: count :: rest)
  = Panic.
Proof.
  intros Hcount Hlen Hfree.
  unfold AcknowledgePacket.Decode, Buffer.NewBuffer.
  rewrite checkPidAndLength_match.
  2:{ unfold lengthOk, acknowledgedBaseLength, Buffer.Len in *.
      simpl List.length. lia. }
  cbn [Buffer.ReadByte].
  replace (byte_val count <? 1) with false
    by (symmetry; apply Z.ltb_ge; lia).
  destruct (Z.to_nat (byte_val count)) as [|[|k]] eqn:E; try lia.
  cbn [AcknowledgePacket.sequenceIds repeat AcknowledgePacket.readIds].
  unfold Buffer.ReadBytes. rewrite readSlice_delimFree by assumption.
  destruct rest as [|b0 [|b1 [|b2 [|b3 rest]]]];
    try (unfold Buffer.Len in Hlen; simpl List.length in Hlen; lia).
  reflexivity.
Qed.

Lemma Acknowledge_Decode_panics_without_delimiter_witness :
  2 <= byte_val Byte.x02
  /\ 4 <= Buffer.Len [Byte.x00; Byte.x00; Byte.x00; Byte.x07;
                      Byte.x00; Byte.x00; Byte.x00; Byte.x63]
  /\ delimFree Byte.x04 [Byte.x00; Byte.x00; Byte.x00; Byte.x07;
                         Byte.x00; Byte.x00; Byte.x00; Byte.x63] = true
  /\ AcknowledgePacket.Decode {| AcknowledgePacket.sequenceIds := [] |}
       [Byte.x0a; Byte.x02; Byte.x00; Byte.x00; Byte.x00; Byte.x07;
        Byte.x00; Byte.x00; Byte.x00; Byte.x63]
     = Panic.
Proof.
  assert (H1 : 2 <= byte_val Byte.x02) by (vm_compute; discriminate).
  assert (H2 : 4 <= Buffer.Len [Byte.x00; Byte.x00; Byte.x00; Byte.x07;
                                Byte.x00; Byte.x00; Byte.x00; Byte.x63])
    by (vm_compute; discriminate).
  split; [exact H1|]. split; [exact H2|]. split; [reflexivity|].
  exact (Acknowledge_Decode_panics_without_delimiter
           {| AcknowledgePacket.sequenceIds := [] |} Byte.x02
           [Byte.x00; Byte.x00; Byte.x00; Byte.x07;
            Byte.x00; Byte.x00; Byte.x00; Byte.x63] H1 H2 eq_refl).
Defined.

(** ** A successful decode overwrites the receiver *)

(** X15: for the three handshake packets a [Decode] that reports no error
    has assigned every field: decoding the same buffer into any other
    receiver gives the same packet. *)
Theorem Decode_success_ignores_receiver (data : list byte) :
  (forall r1 r2 p,
      ConnectionRequestPacket.Decode r1 data = Done (p, nil_error) ->
      ConnectionRequestPacket.Decode r2 data = Done (p, nil_error))
  /\ (forall r1 r2 p,
      ConnectionAcceptedPacket.Decode r1 data = Done (p, nil_error) ->
      ConnectionAcceptedPacket.Decode r2 data = Done (p, nil_error))
  /\ (forall r1 r2 p,
      ConnectionRejectedPacket.Decode r1 data = Done (p, nil_error) ->
      ConnectionRejectedPacket.Decode r2 data = Done (p, nil_error)).
Proof.
  split; [|split]; intros r1 r2 p H.
  - destruct (Z.eq_dec (Buffer.Len data) connectionRequestLength)
      as [Heq|Hne].
    2:{ unfold ConnectionRequestPacket.Decode, Buffer.NewBuffer in H.
        rewrite checkPidAndLength_exact_bad in H by assumption.
        discriminate H. }
    destruct data as [|pid rest]; [discriminate Heq|].
    destruct (Byte.byte_eq_dec pid ConnectionRequestPid) as [->|Hpid].
    2:{ unfold ConnectionRequestPacket.Decode, Buffer.NewBuffer in H.
        rewrite checkPidAndLength_mismatch in H by assumption.
        discriminate H. }
    assert (Hlen : List.length rest = 9%nat).
    { unfold Buffer.Len, connectionRequestLength in Heq.
      simpl List.length in Heq. lia. }
    do 9 (destruct rest as [|? rest]; [discriminate Hlen|]).
    destruct rest; [|discriminate Hlen].
    rewrite ConnectionRequest_Decode_bytes in *. exact H.
  - destruct (Z.eq_dec (Buffer.Len data) connectionAcceptedLength)
      as [Heq|Hne].
    2:{ unfold ConnectionAcceptedPacket.Decode, Buffer.NewBuffer in H.
        rewrite checkPidAndLength_exact_bad in H by assumption.
        discriminate H. }
    destruct data as [|pid rest]; [discriminate Heq|].
    destruct (Byte.byte_eq_dec pid ConnectionAcceptedPid) as [->|Hpid].
    2:{ unfold ConnectionAcceptedPacket.Decode, Buffer.NewBuffer in H.
        rewrite checkPidAndLength_mismatch in H by assumption.
        discriminate H. }
    assert (Hlen : List.length rest = 8%nat).
    { unfold Buffer.Len, connectionAcceptedLength in Heq.
      simpl List.length in Heq. lia. }
    do 8 (destruct rest as [|? rest]; [discriminate Hlen|]).
    destruct rest; [|discriminate Hlen].
    rewrite ConnectionAccepted_Decode_bytes in *. exact H.
  - rewrite ConnectionRejected_Decode_cases in *.
    destruct data as [|pid [|reason [|c rest]]]; try discriminate H.
    destruct (Byte.eqb pid ConnectionRejectedPid); [exact H|discriminate H].
Qed.

Lemma Decode_success_ignores_receiver_witness :
  ConnectionRejectedPacket.Decode
    {| ConnectionRejectedPacket.reason := Byte.x00 |} [Byte.x02; Byte.x01]
  = Done ({| ConnectionRejectedPacket.reason := Byte.x01 |}, nil_error)
  /\ ConnectionRejectedPacket.Decode
       {| ConnectionRejectedPacket.reason := Byte.x02 |} [Byte.x02; Byte.x01]
     = Done ({| ConnectionRejectedPacket.reason := Byte.x01 |}, nil_error).
Proof.
  split; [reflexivity|].
  exact (proj2 (proj2 (Decode_success_ignores_receiver [Byte.x02; Byte.x01]))
           {| ConnectionRejectedPacket.reason := Byte.x00 |}
           {| ConnectionRejectedPacket.reason := Byte.x02 |}
           {| ConnectionRejectedPacket.reason := Byte.x01 |} eq_refl).
Defined.
